(** * git-commit Ansible module: a shallow embedding of [git-commit.py]

    The module stages, commits and pushes a local repository by running the
    git command line tool.  This file embeds its functions ([get_repo_path],
    [write_ssh_wrapper], [set_git_ssh], [git_version], [main] and the closure
    [_get_diff_index]) as Rocq functions over an explicit state, and proves
    the properties of the behavioural description against them.

    Conventions.
    - A Python [str] is a [string]; its characters are read as code points
      below 256.
    - [module.params], [os.environ] and the [changes] dictionary are finite
      maps with string keys ([gmap string _]).
    - The mutable objects a run touches (process environment, files created,
      the AnsibleModule attributes, the [result] dictionary, the list of
      external commands run so far) form the record [world]; functions with
      effects are state transformers that may stop the run.
    - What the module cannot decide on its own (the file system, the
      temporary-file allocator, the outcome of external commands) is the
      record [host]. *)

From stdpp Require Import base gmap strings list.
From Stdlib Require Import ZArith Lia Ascii String.

Local Open Scope string_scope.
Local Open Scope Z_scope.

(** ** Characters the Python source writes with escapes *)

Definition dquote : ascii := "034"%char.
Definition backslash : ascii := "\"%char.
Definition tab : ascii := "009"%char.
Definition newline : ascii := "010"%char.

Definition str1 (c : ascii) : string := String c EmptyString.

(** ** Python string operations used by the module *)

(** [str.isspace] on one character, which is also what [\s] matches in a
    [str] pattern: code points 9-13, 28-32, 133 and 160 (below 256). *)
Definition is_space (c : ascii) : bool :=
  let n := nat_of_ascii c in
  ((9 <=? n) && (n <=? 13) || (28 <=? n) && (n <=? 32)
   || (n =? 133) || (n =? 160))%nat.

(** [sub in s] *)
Fixpoint str_contains (sub s : string) : bool :=
  String.prefix sub s ||
  match s with
  | EmptyString => false
  | String _ s' => str_contains sub s'
  end.

(** [s.startswith(p)] *)
Definition startswith (p s : string) : bool := String.prefix p s.

(** [s.endswith("/")] *)
Fixpoint ends_with_char (c : ascii) (s : string) : bool :=
  match s with
  | EmptyString => false
  | String d EmptyString => bool_decide (d = c)
  | String _ s' => ends_with_char c s'
  end.

(** [sep.join(items)] *)
Fixpoint join (sep : string) (items : list string) : string :=
  match items with
  | [] => ""
  | [x] => x
  | x :: rest => x +:+ sep +:+ join sep rest
  end.

(** [s.split(sep, maxsplit)] for a non-empty [sep]; [maxsplit = None] is
    Python's default [-1].  The scan goes left to right; [skip] counts the
    characters of a separator just matched that are still to be passed over,
    [cur] is the piece being collected. *)
Fixpoint split_go (sep : string) (maxsplit : option nat) (skip : nat)
    (cur : string) (s : string) : list string :=
  match s with
  | EmptyString => [cur]
  | String c s' =>
      match skip with
      | S k => split_go sep maxsplit k cur s'
      | O =>
          let more := match maxsplit with Some O => false | _ => true end in
          if more && String.prefix sep s then
            cur :: split_go sep (pred <$> maxsplit)
                     (String.length sep - 1) "" s'
          else split_go sep maxsplit O (cur +:+ str1 c) s'
      end
  end.

Definition str_split (sep : string) (maxsplit : option nat) (s : string)
  : list string :=
  split_go sep maxsplit O "" s.

(** [s.replace(old, new, -1)] for a non-empty [old]. *)
Fixpoint replace_go (old new : string) (skip : nat) (s : string) : string :=
  match s with
  | EmptyString => ""
  | String c s' =>
      match skip with
      | S k => replace_go old new k s'
      | O =>
          if String.prefix old s
          then new +:+ replace_go old new (String.length old - 1) s'
          else String c (replace_go old new O s')
      end
  end.

Definition str_replace (old new s : string) : string := replace_go old new O s.

(** [s.rstrip()]: drop the trailing white space. *)
Fixpoint rstrip (s : string) : string :=
  match s with
  | EmptyString => ""
  | String c s' =>
      match rstrip s' with
      | EmptyString => if is_space c then "" else str1 c
      | r => String c r
      end
  end.

(** [re.split(r'\s+', s)]: the pieces between the maximal runs of white
    space, with an empty piece before a leading run and after a trailing
    one.  [in_ws] tells that the previous character was white space. *)
Fixpoint re_split_go (in_ws : bool) (cur : string) (s : string) : list string :=
  match s with
  | EmptyString => [cur]
  | String c s' =>
      if is_space c then
        if in_ws then re_split_go true cur s'
        else cur :: re_split_go true "" s'
      else re_split_go false (cur +:+ str1 c) s'
  end.

Definition re_split_ws (s : string) : list string := re_split_go false "" s.

(** ** [os.path] (POSIX flavour) *)

Definition isabs (s : string) : bool := startswith "/" s.

(** [os.path.join(a, b)] *)
Definition path_join (a b : string) : string :=
  if startswith "/" b then b
  else if bool_decide (a = "") || ends_with_char "/" a then a +:+ b
  else a +:+ "/" +:+ b.


(** ** Values, exceptions and the ways a run ends *)

(** What AnsibleModule stores in [module.params] for the types this
    module's [argument_spec] declares. *)
Inductive value :=
  | VNone
  | VBool (b : bool)
  | VStr (s : string)
  | VList (l : list string).

(** The objects a pipeline step receives through its star-args: the items
    of the previous step's [(rc, out, err)], and tuples of them. *)
Inductive atom :=
  | AInt (n : Z)
  | AStr (s : string).

Inductive pyval :=
  | PAtom (a : atom)
  | PTuple (items : list atom).

Inductive exn :=
  | KeyError (key : string)
  | ValueError (msg : string)
  | AttributeError (msg : string)
  | TypeError (msg : string)
  | OSError (msg : string).

(** The [result] dictionary of [main]; a key that is not set is [None]. *)
Record result_dict := Result {
  res_local_path : option string;
  res_changed : option bool;
  res_files : option (gmap string (list string))
}.

Definition empty_result : result_dict := Result None None None.

(** A run ends in [module.exit_json] on the [result] dictionary, in
    [module.fail_json], or with an exception nothing catches. *)
Inductive stop :=
  | ExitJson (r : result_dict)
  | FailJson (msg : string) (details : option string)
  | Uncaught (e : exn).

(** One [module.run_command] invocation: the command line, the [cwd]
    argument, and [module.run_command_environ_update] at that moment. *)
Record call := Call {
  cmd : string;
  cwd : option string;
  environ_update : gmap string string
}.

Record world := World {
  environ : gmap string string;
  created : gmap string (string * bool);
  cleanup_files : list string;
  run_command_environ_update : gmap string string;
  result : result_dict;
  calls : list call
}.

(** The state a fresh AnsibleModule starts [main] in, for a process
    environment [env]. *)
Definition initial_world (env : gmap string string) : world :=
  World env ∅ [] ∅ empty_result [].

Record host := Host {
  get_bin_path : string -> string + string;
  module_path : string;
  access_rwx : string -> bool;
  mkstemp : option string -> string + string;
  isfile : string -> bool;
  isdir : string -> bool;
  read_file : string -> string + string;
  subprocess : list call -> call -> Z * string * string
}.

Inductive res (A : Type) :=
  | Ret (a : A)
  | Stop (s : stop).
Arguments Ret {A} a.
Arguments Stop {A} s.

Definition prog (A : Type) : Type := world -> res A * world.

Definition ret {A} (a : A) : prog A := fun w => (Ret a, w).

Definition halt {A} (s : stop) : prog A := fun w => (Stop s, w).

Definition bind {A B} (m : prog A) (k : A -> prog B) : prog B :=
  fun w =>
    match m w with
    | (Ret a, w') => k a w'
    | (Stop s, w') => (Stop s, w')
    end.

Declare Scope prog_scope.
Delimit Scope prog_scope with prog.
Notation "x <- m ;; k" := (bind m (fun x => k))
  (at level 100, m at next level, right associativity) : prog_scope.
Notation "m ;;; k" := (bind m (fun _ => k))
  (at level 100, right associativity) : prog_scope.

Definition raise {A} (e : exn) : prog A := halt (Uncaught e).
Definition fail_json {A} (msg : string) (details : option string) : prog A :=
  halt (FailJson msg details).
Definition exit_json {A} : prog A := fun w => (Stop (ExitJson (result w)), w).

Definition modify (f : world -> world) : prog unit := fun w => (Ret tt, f w).

Definition set_environ (e : gmap string string) (w : world) : world :=
  World e (created w) (cleanup_files w) (run_command_environ_update w)
        (result w) (calls w).
Definition set_created (c : gmap string (string * bool)) (w : world) : world :=
  World (environ w) c (cleanup_files w) (run_command_environ_update w)
        (result w) (calls w).
Definition set_cleanup_files (l : list string) (w : world) : world :=
  World (environ w) (created w) l (run_command_environ_update w)
        (result w) (calls w).
Definition set_run_command_environ_update (u : gmap string string) (w : world)
  : world :=
  World (environ w) (created w) (cleanup_files w) u (result w) (calls w).
Definition set_result (r : result_dict) (w : world) : world :=
  World (environ w) (created w) (cleanup_files w)
        (run_command_environ_update w) r (calls w).
Definition set_calls (l : list call) (w : world) : world :=
  World (environ w) (created w) (cleanup_files w)
        (run_command_environ_update w) (result w) l.

(** Python truth of a string and of an optional string. *)
Definition nonempty (s : string) : bool := negb (bool_decide (s = "")).
Definition truthy_opt (o : option string) : bool :=
  match o with Some s => nonempty s | None => false end.

Definition truthy (v : value) : bool :=
  match v with
  | VNone => false
  | VBool b => b
  | VStr s => nonempty s
  | VList l => negb (bool_decide (l = []))
  end.

(** [module.run_command(cmd, cwd=...)]: the external process is the host's;
    the invocation is recorded. *)
Definition run_command (h : host) (c : string) (dir : option string)
  : prog (Z * string * string) :=
  fun w =>
    let inv := Call c dir (run_command_environ_update w) in
    (Ret (subprocess h (calls w) inv), set_calls (calls w ++ [inv])%list w).

(** ** The SSH wrapper and the process environment *)

Definition get_module_path (h : host) : string := module_path h.

Definition quoted (s : string) : string := str1 dquote +:+ s +:+ str1 dquote.

(** The script [write_ssh_wrapper] writes. *)
Definition template : string :=
  join (str1 newline)
    [ "#!/bin/sh";
      "if [ -z " +:+ quoted "$GIT_SSH_OPTS" +:+ " ]; then";
      "    BASEOPTS=" +:+ quoted EmptyString;
      "else";
      "    BASEOPTS=$GIT_SSH_OPTS";
      "fi";
      EmptyString;
      "# Let ssh fail rather than prompt";
      "BASEOPTS=" +:+ quoted "$BASEOPTS -o BatchMode=yes";
      EmptyString;
      "if [ -z " +:+ quoted "$GIT_KEY" +:+ " ]; then";
      "    ssh $BASEOPTS " +:+ quoted "$@";
      "else";
      "    ssh -i " +:+ quoted "$GIT_KEY"
        +:+ " -o IdentitiesOnly=yes $BASEOPTS " +:+ quoted "$@";
      "fi";
      EmptyString ].

(** [write_ssh_wrapper()]: a temporary file next to the module when its
    directory is fully accessible, else (or when that fails) in the default
    temporary directory; the template is written and the file made
    executable for its owner.  [created] records content and that bit. *)
Definition write_ssh_wrapper (h : host) : prog string :=
  fun w =>
    let module_dir := get_module_path h in
    let first :=
      if access_rwx h module_dir
      then mkstemp h (Some (module_dir +:+ "/"))
      else inr "OSError" in
    let made :=
      match first with
      | inl wrapper_path => inl wrapper_path
      | inr _ => mkstemp h None
      end in
    match made with
    | inl wrapper_path =>
        (Ret wrapper_path,
         set_created (<[wrapper_path := (template, true)]> (created w)) w)
    | inr e => (Stop (Uncaught (OSError e)), w)
    end.

(** [os.environ.get(k)] is true *)
Definition env_truthy (k : string) (env : gmap string string) : bool :=
  truthy_opt (env !! k).

(** [set_git_ssh(ssh_wrapper, key_file, ssh_opts)] on [os.environ]. *)
Definition set_git_ssh_env (ssh_wrapper : string) (key_file ssh_opts : option string)
    (env : gmap string string) : gmap string string :=
  let env := if env_truthy "GIT_SSH" env then delete "GIT_SSH" env else env in
  let env := <["GIT_SSH" := ssh_wrapper]> env in
  let env := if env_truthy "GIT_KEY" env then delete "GIT_KEY" env else env in
  let env :=
    match key_file with
    | Some k => if nonempty k then <["GIT_KEY" := k]> env else env
    | None => env
    end in
  let env :=
    if env_truthy "GIT_SSH_OPTS" env then delete "GIT_SSH_OPTS" env else env in
  match ssh_opts with
  | Some o => if nonempty o then <["GIT_SSH_OPTS" := o]> env else env
  | None => env
  end.

Definition set_git_ssh (ssh_wrapper : string) (key_file ssh_opts : option string)
  : prog unit :=
  modify (fun w => set_environ (set_git_ssh_env ssh_wrapper key_file ssh_opts
                                  (environ w)) w).

(** [module.add_cleanup_file(path=...)] *)
Definition add_cleanup_file (path : string) : prog unit :=
  modify (fun w => set_cleanup_files (cleanup_files w ++ [path])%list w).

(** ** The repository locator *)

(** [get_repo_path(local_path)].  An [IOError] of [open]/[read] carries the
    host's text; unpacking a split that has one element only is the
    [ValueError] Python raises for it. *)
Definition get_repo_path (h : host) (local_path : string) : exn + string :=
  let repo_path := path_join local_path ".git" in
  if isfile h repo_path then
    match read_file h repo_path with
    | inr e => inl (OSError e)
    | inl data =>
        match str_split "gitdir: " (Some 1%nat) (rstrip data) with
        | [ref_prefix; gitdir] =>
            if nonempty ref_prefix then
              inl (ValueError ".git file has invalid git dir reference format")
            else
              let repo_path :=
                if isabs gitdir then gitdir
                else path_join (hd EmptyString (str_split ".git" None repo_path))
                               gitdir in
              if negb (isdir h repo_path) then
                inl (ValueError (repo_path +:+ " is not a directory"))
              else inr repo_path
        | _ =>
            inl (ValueError "not enough values to unpack (expected 2, got 1)")
        end
    end
  else inr repo_path.

(** ** The installed git version *)

(** The text up to the first newline, and what follows from that newline on. *)
Fixpoint take_line (s : string) : string * string :=
  match s with
  | EmptyString => (EmptyString, EmptyString)
  | String c s' =>
      if bool_decide (c = newline) then (EmptyString, s)
      else let '(l, r) := take_line s' in (String c l, r)
  end.

Fixpoint drop_chars (n : nat) (s : string) : string :=
  match n, s with
  | S k, String _ s' => drop_chars k s'
  | _, _ => s
  end.

(** [re.search] for the pattern "git version", a space, a group of any
    characters, and the end anchor: group 1 of the leftmost match.  The dot
    stops at a newline and the anchor holds at the end of the text or before
    its final newline. *)
Fixpoint search_version (out : string) : option string :=
  let here :=
    if String.prefix "git version " out then
      let '(l, r) := take_line (drop_chars 12 out) in
      if bool_decide (r = EmptyString) || bool_decide (r = str1 newline)
      then Some l else None
    else None in
  match here with
  | Some l => Some l
  | None =>
      match out with
      | EmptyString => None
      | String _ out' => search_version out'
      end
  end.

(** [git_version(git_path, module)]; the version is the text LooseVersion
    wraps. *)
Definition git_version (h : host) (git_path : string) : prog (option string) :=
  (r <- run_command h (git_path +:+ " --version") None ;;
   let '(rc, out, err) := r in
   if negb (rc =? 0) then ret None
   else ret (search_version out))%prog.

(** ** [module.params] *)

(** The type of value AnsibleModule delivers for a declared parameter:
    a string, a string or [None], a boolean, a list of strings. *)
Inductive ty := TStr | TOptStr | TBool | TList.

(** The keys of [argument_spec], in the order of the source, with the type
    each declaration gives ([required] entries and entries with a default are
    never [None]). *)
Definition argument_spec : list (string * ty) :=
  [ ("local_path", TStr); ("user", TOptStr); ("token", TOptStr);
    ("comment", TOptStr); ("add", TList); ("branch", TStr);
    ("remote", TStr); ("push", TBool); ("set_upstream", TBool);
    ("commit", TBool); ("push_option", TOptStr); ("mode", TStr);
    ("key_file", TOptStr); ("ssh_opts", TOptStr); ("executable", TOptStr) ].

Definition has_type (t : ty) (v : value) : bool :=
  match t, v with
  | TStr, VStr _ => true
  | TOptStr, VStr _ => true
  | TOptStr, VNone => true
  | TBool, VBool _ => true
  | TList, VList _ => true
  | _, _ => false
  end.

(** What AnsibleModule guarantees of [module.params]: it holds the declared
    keys and no other (an undeclared parameter is refused before [main] goes
    on), each with a value of its declared type. *)
Definition conformsb (p : gmap string value) : bool :=
  forallb (fun k => bool_decide (k ∈ argument_spec.*1)) (elements (dom p))
  && forallb (fun kt => match p !! kt.1 with
                        | Some v => has_type kt.2 v
                        | None => false
                        end) argument_spec.

Definition conforms (p : gmap string value) : Prop := conformsb p = true.

(** The local variables [main] binds from the parameters. *)
Record locals := Locals {
  local_path : string;
  user : option string;
  token : option string;
  comment : option string;
  add : list string;
  branch : string;
  remote : string;
  push : bool;
  set_upstream : bool;
  commit : bool;
  push_option : option string;
  mode : string;
  key_file : option string;
  ssh_opts : option string;
  git_path : string
}.

(** [module.params[k]] *)
Definition getitem (p : gmap string value) (k : string) : prog value :=
  match p !! k with
  | Some v => ret v
  | None => raise (KeyError k)
  end.

(** The value of a parameter at its declared type.  [argument_spec] types
    every entry, so [module.params] holds no value of another type; on such a
    dictionary the embedding stops instead of following Python's dynamic
    typing further. *)
Definition ill_typed {A} (k : string) : prog A :=
  raise (TypeError (k +:+ " is not of its declared type")).

Definition param_str (p : gmap string value) (k : string) : prog string :=
  (v <- getitem p k ;;
   match v with VStr s => ret s | _ => ill_typed k end)%prog.

Definition param_opt_str (p : gmap string value) (k : string)
  : prog (option string) :=
  (v <- getitem p k ;;
   match v with
   | VStr s => ret (Some s)
   | VNone => ret None
   | _ => ill_typed k
   end)%prog.

Definition param_bool (p : gmap string value) (k : string) : prog bool :=
  (v <- getitem p k ;;
   match v with VBool b => ret b | _ => ill_typed k end)%prog.

Definition param_list (p : gmap string value) (k : string)
  : prog (list string) :=
  (v <- getitem p k ;;
   match v with VList l => ret l | _ => ill_typed k end)%prog.

(** [module.get_bin_path('git', True)]: the path, or [fail_json]. *)
Definition find_git (h : host) : prog string :=
  match get_bin_path h "git" with
  | inl path => ret path
  | inr msg => fail_json msg None
  end.

(** The fifteen assignments that open [main]. *)
Definition read_params (h : host) (p : gmap string value) : prog locals :=
  (local_path <- param_str p "local_path" ;;
   user <- param_opt_str p "user" ;;
   token <- param_opt_str p "token" ;;
   comment <- param_opt_str p "comment" ;;
   add <- param_list p "add" ;;
   branch <- param_str p "branch" ;;
   remote <- param_str p "remote" ;;
   push <- param_bool p "push" ;;
   set_upstream <- param_bool p "set_upstream" ;;
   commit <- param_bool p "commit" ;;
   push_option <- param_opt_str p "push_option" ;;
   mode <- param_str p "mode" ;;
   key_file <- param_opt_str p "key_file" ;;
   ssh_opts <- param_opt_str p "ssh_opts" ;;
   executable <- param_opt_str p "executable" ;;
   git_path <- match executable with
               | Some e => if nonempty e then ret e else find_git h
               | None => find_git h
               end ;;
   ret (Locals local_path user token comment add branch remote push
               set_upstream commit push_option mode key_file ssh_opts
               git_path))%prog.

(** [if commit and not comment: module.fail_json(...)] *)
Definition check_comment (l : locals) : prog unit :=
  if commit l && negb (truthy_opt (comment l)) then
    fail_json "Comment must be provided in order commit changes." None
  else ret tt.

(** ** Host key acceptance *)

Definition hostkey_flag : string := "-o StrictHostKeyChecking=no".

Definition c_locale : gmap string string :=
  <["LANG" := "C"]> (<["LC_ALL" := "C"]> (<["LC_MESSAGES" := "C"]>
    (<["LC_CTYPE" := "C"]> ∅))).

(** The block guarded by [module.params['accept_hostkey']]: the new value of
    [ssh_opts].  The assignment of [module.run_command_environ_update] sits in
    the branch taken when [ssh_opts] is [None]. *)
Definition accept_hostkey (p : gmap string value) (ssh_opts : option string)
  : prog (option string) :=
  (v <- getitem p "accept_hostkey" ;;
   if truthy v then
     match ssh_opts with
     | Some o =>
         if negb (str_contains hostkey_flag o)
         then ret (Some (o +:+ " " +:+ hostkey_flag))
         else ret (Some o)
     | None =>
         modify (set_run_command_environ_update c_locale) ;;;
         ret (Some hostkey_flag)
     end
   else ret ssh_opts)%prog.

(** ** The change-set parser *)

Definition init_changes : gmap string (list string) :=
  <["added" := []]> (<["modified" := []]> (<["deleted" := []]> ∅)).

(** The [if]/[elif] chain on [stage_action]; [None] is the [continue]. *)
Definition stage_bucket (stage_action : string) : option string :=
  if bool_decide (stage_action = "A") then Some "added"
  else if bool_decide (stage_action = "D") then Some "deleted"
  else if bool_decide (stage_action = "M") then Some "modified"
  else None.

(** The [for staged_file in staged_files] loop of [_get_diff_index].  The
    two-name unpacking of the split raises [ValueError] on any other number
    of pieces. *)
Fixpoint classify (staged_files : list string)
    (changes : gmap string (list string))
  : exn + gmap string (list string) :=
  match staged_files with
  | [] => inr changes
  | staged_file :: rest =>
      match re_split_ws staged_file with
      | [stage_action; filename] =>
          match stage_bucket stage_action with
          | Some key =>
              match changes !! key with
              | Some paths =>
                  classify rest (<[key := (paths ++ [filename])%list]> changes)
              | None => inl (KeyError key)
              end
          | None => classify rest changes
          end
      | [_] =>
          inl (ValueError "not enough values to unpack (expected 2, got 1)")
      | _ => inl (ValueError "too many values to unpack (expected 2)")
      end
  end.

(** [v.split(sep)]: only a [str] has the method. *)
Definition method_split (v : pyval) (sep : string) : exn + list string :=
  match v with
  | PAtom (AStr s) => inr (str_split sep None s)
  | PAtom (AInt _) =>
      inl (AttributeError "'int' object has no attribute 'split'")
  | PTuple _ =>
      inl (AttributeError "'tuple' object has no attribute 'split'")
  end.

(** [_get_diff_index], called with the previous step's results as [args].
    The slice [args[:-1]] of the argument tuple is a tuple. *)
Definition _get_diff_index (l : locals) (args : list atom)
  : prog (Z * string * string) :=
  (modify (set_result (Result (Some (local_path l)) (Some false) (Some ∅))) ;;;
   match method_split (PTuple (removelast args)) (str1 newline) with
   | inl e => raise e
   | inr staged_files =>
       if negb (List.length staged_files =? 0)%nat then
         match classify staged_files init_changes with
         | inl e => raise e
         | inr changes =>
             modify (set_result
                       (Result (Some (local_path l)) (Some true)
                               (Some changes))) ;;;
             ret (0, EmptyString, EmptyString)
         end
       else exit_json
   end)%prog.

(** ** The command pipeline *)

Definition command : Type := list atom -> prog (Z * string * string).

(** The string the commit lambda formats; [comment] is [None] only when
    [commit] is false, and the lambda then is not built. *)
Definition commit_command (git_path repo_path msg : string) : string :=
  git_path +:+ " -C " +:+ repo_path +:+ " commit -m "
    +:+ quoted (str_replace (str1 dquote) (String backslash (str1 dquote)) msg).

Definition push_command (git_path repo_path push_option remote : string)
    (set_upstream : bool) (branch : string) : string :=
  git_path +:+ " -C " +:+ repo_path +:+ " push " +:+ push_option +:+ " "
    +:+ remote +:+ " " +:+ (if set_upstream then "--set-upstream " else "")
    +:+ " " +:+ branch.

(** The list [commands] as [main] builds it. *)
Definition main_commands (h : host) (l : locals) (repo_path : string)
  : list (string * command) :=
  ((if negb (bool_decide (add l = [])) then
     [ ("git_add",
        fun _ => run_command h
                   (git_path l +:+ " -C " +:+ repo_path +:+ " add "
                      +:+ join " " (add l))
                   (Some (local_path l)));
       ("git_files_added",
        fun _ => run_command h
                   (git_path l +:+ " -C " +:+ repo_path
                      +:+ " diff-index --cached --name-status HEAD")
                   (Some (local_path l)));
       ("git_staged_files", _get_diff_index l) ]
   else [])
  ++ (if commit l then
        [ ("git_commit",
           fun _ =>
             match comment l with
             | Some msg =>
                 run_command h (commit_command (git_path l) repo_path msg)
                             (Some (local_path l))
             | None =>
                 raise (AttributeError
                          "'NoneType' object has no attribute 'replace'")
             end) ]
      else [])
  ++ (if push l then
        let push_option :=
          match push_option l with
          | Some o => if nonempty o then "--push-option=" +:+ o else ""
          | None => ""
          end in
        [ ("git_push",
           fun _ => run_command h
                      (push_command (git_path l) repo_path push_option
                                    (remote l) (set_upstream l) (branch l))
                      (Some (local_path l))) ]
      else []))%list.

(** The [for (label, command) in commands] loop: the results of the last
    step when every step returned 0. *)
Fixpoint run_steps (commands : list (string * command))
    (prev_results : list atom) : prog (list atom) :=
  match commands with
  | [] => ret prev_results
  | (label, command) :: rest =>
      fun w =>
        match command prev_results w with
        | (Ret (rc, out, err), w') =>
            if negb (rc =? 0) then
              (Stop (FailJson ("Failed to " +:+ label +:+ ": " +:+ out
                                 +:+ " " +:+ err) None), w')
            else run_steps rest [AInt rc; AStr out; AStr err] w'
        | (Stop s, w') => (Stop s, w')
        end
  end.

(** The loop and the final [module.exit_json]. *)
Definition run_pipeline (commands : list (string * command)) : prog unit :=
  (_ <- run_steps commands [] ;; exit_json)%prog.

(** ** [main] *)

Definition invalid_repo_msg : string :=
  "Current repo does not have a valid reference to a separate Git dir or it refers to the invalid path".

(** [main] from the assignment of [gitconfig] to its end, for the local
    variables [l] and the [ssh_opts] the host key block left.
    ([os.path.realpath(local_path)] is overwritten before any use, and
    [gitconfig] and [git_version_used] are never read.) *)
Definition main_body (h : host) (l : locals) (ssh_opts : option string)
  : prog unit :=
  (repo_path <- match get_repo_path h (local_path l) with
                | inr repo_path => ret repo_path
                | inl (OSError e) => fail_json invalid_repo_msg (Some e)
                | inl (ValueError e) => fail_json invalid_repo_msg (Some e)
                | inl e => raise e
                end ;;
   ssh_wrapper <- write_ssh_wrapper h ;;
   set_git_ssh ssh_wrapper (key_file l) ssh_opts ;;;
   add_cleanup_file ssh_wrapper ;;;
   git_version_used <- git_version h (git_path l) ;;
   run_pipeline (main_commands h l repo_path))%prog.

Definition main (h : host) (p : gmap string value) : prog unit :=
  (l <- read_params h p ;;
   check_comment l ;;;
   ssh_opts <- accept_hostkey p (ssh_opts l) ;;
   main_body h l ssh_opts)%prog.

(** ** Sample hosts and requests *)

(** A host with git at [/usr/bin/git], a plain repository at [/repo], and
    a git whose [diff-index] prints [diff_out] and whose [push] exits with
    [push_rc]. *)
Definition sample_host (diff_out : string) (push_rc : Z) : host :=
  Host (fun _ => inl "/usr/bin/git")
       "/opt/modules"
       (fun _ => true)
       (fun prefix => inl (default "/tmp/" prefix +:+ "tmpwrap"))
       (fun _ => false)
       (fun path => bool_decide (path = "/repo/.git"))
       (fun _ => inr "No such file or directory")
       (fun _ c =>
          if str_contains " diff-index " (cmd c) then (0, diff_out, "")
          else if str_contains " push " (cmd c)
               then (push_rc, "", "remote: rejected")
          else (0, "", "")).

Definition sample_params (add_v : list string) (comment_v : value)
    (ssh_opts_v : value) (mode_v : string) : gmap string value :=
  list_to_map
    [ ("local_path", VStr "/repo"); ("user", VNone); ("token", VNone);
      ("comment", comment_v); ("add", VList add_v);
      ("branch", VStr "master"); ("remote", VStr "origin");
      ("push", VBool true); ("set_upstream", VBool false);
      ("commit", VBool true); ("push_option", VNone);
      ("mode", VStr mode_v); ("key_file", VNone);
      ("ssh_opts", ssh_opts_v); ("executable", VNone) ].

Definition sample_locals (add_v : list string) (mode_v : string) : locals :=
  Locals "/repo" None None (Some "msg") add_v "master" "origin" true false
         true None mode_v None None "/usr/bin/git".


(** A request that asks for nothing to be staged, with the commit message
    [msg]. *)
Definition push_only_locals : locals := sample_locals [] "ssh".

(** A working tree below a directory whose name holds [.git]: the [.git]
    entry of [/srv/foo.git/wt] is a file that points to the sibling
    [other/.git], which exists. *)
Definition linked_host : host :=
  Host (fun _ => inl "/usr/bin/git")
       "/opt/modules"
       (fun _ => true)
       (fun prefix => inl (default "/tmp/" prefix +:+ "tmpwrap"))
       (fun path => bool_decide (path = "/srv/foo.git/wt/.git"))
       (fun path => bool_decide (path = "/srv/foo.git/wt/../other/.git")
                    || bool_decide (path = "/srv/foo.git/other/.git"))
       (fun path => if bool_decide (path = "/srv/foo.git/wt/.git")
                    then inl ("gitdir: ../other/.git" +:+ str1 newline)
                    else inr "No such file or directory")
       (fun _ _ => (0, "", "")).

(** ** Notions the statements use *)

(** The parameters at their declared types, for the statements about
    [read_params]. *)
Definition get_str (p : gmap string value) (k : string) : string :=
  match p !! k with Some (VStr s) => s | _ => EmptyString end.
Definition get_opt_str (p : gmap string value) (k : string) : option string :=
  match p !! k with Some (VStr s) => Some s | _ => None end.
Definition get_bool (p : gmap string value) (k : string) : bool :=
  match p !! k with Some (VBool b) => b | _ => false end.
Definition get_list (p : gmap string value) (k : string) : list string :=
  match p !! k with Some (VList l) => l | _ => [] end.

Definition locals_of (p : gmap string value) (git : string) : locals :=
  Locals (get_str p "local_path") (get_opt_str p "user")
         (get_opt_str p "token") (get_opt_str p "comment")
         (get_list p "add") (get_str p "branch") (get_str p "remote")
         (get_bool p "push") (get_bool p "set_upstream")
         (get_bool p "commit") (get_opt_str p "push_option")
         (get_str p "mode") (get_opt_str p "key_file")
         (get_opt_str p "ssh_opts") git.

(** The git executable of a run: the [executable] parameter when it is a
    non-empty string, else what the host finds. *)
Definition git_of (h : host) (p : gmap string value) : string + string :=
  if truthy_opt (get_opt_str p "executable")
  then inl (get_str p "executable")
  else get_bin_path h "git".

(** The failure, if any, that ends [main] before it looks up
    [accept_hostkey]: git is not found, or a commit is asked for without a
    comment. *)
Definition early_failure (h : host) (p : gmap string value) : option stop :=
  match git_of h p with
  | inr msg => Some (FailJson msg None)
  | inl _ =>
      if get_bool p "commit" && negb (truthy_opt (get_opt_str p "comment"))
      then Some (FailJson "Comment must be provided in order commit changes."
                          None)
      else None
  end.

(** A status line that splits into a status and a path. *)
Definition status_line (line : string) : option (string * string) :=
  match re_split_ws line with
  | [stage_action; filename] => Some (stage_action, filename)
  | _ => None
  end.

(** The paths of the lines whose status is [letter], in the order of the
    lines. *)
Definition paths_with (letter : string) (lines : list string) : list string :=
  omap (fun line =>
          match status_line line with
          | Some (stage_action, filename) =>
              if bool_decide (stage_action = letter) then Some filename
              else None
          | None => None
          end) lines.

Definition changes_of (added modified deleted : list string)
  : gmap string (list string) :=
  <["added" := added]> (<["modified" := modified]>
    (<["deleted" := deleted]> ∅)).

(** Every line splits into a status and a path. *)
Definition well_formed (lines : list string) : Prop :=
  Forall (fun line => is_Some (status_line line)) lines.

(** No path stands on two lines with different statuses. *)
Definition one_status_per_path (lines : list string) : Prop :=
  forall a1 a2 f line1 line2,
    line1 ∈ lines -> line2 ∈ lines ->
    status_line line1 = Some (a1, f) -> status_line line2 = Some (a2, f) ->
    a1 = a2.

(** The module's escaping of a commit message. *)
Definition escape_comment (msg : string) : string :=
  str_replace (str1 dquote) (String backslash (str1 dquote)) msg.

(** How [shlex.split], which [run_command] applies to a command string,
    reads a double-quoted string from the character after its opening quote:
    a backslash before a double quote or a backslash yields that character,
    any other backslash stays, and the first double quote that is not
    escaped ends the string.  The result is the content and the text left
    after the closing quote; [None] when the quote is never closed.  This is
    the quoting rule only: [run_command] afterwards expands [~] and
    [$NAME] in each argument, which is not part of this reading (nor are the
    further expansions a shell would make between double quotes). *)
Fixpoint read_dquoted (s : string) : option (string * string) :=
  match s with
  | EmptyString => None
  | String c s' =>
      if bool_decide (c = dquote) then Some (EmptyString, s')
      else if bool_decide (c = backslash) then
        match s' with
        | EmptyString => None
        | String d s'' =>
            match read_dquoted s'' with
            | Some (content, rest) =>
                if bool_decide (d = dquote) || bool_decide (d = backslash)
                then Some (String d content, rest)
                else Some (String c (String d content), rest)
            | None => None
            end
        end
      else
        match read_dquoted s' with
        | Some (content, rest) => Some (String c content, rest)
        | None => None
        end
  end.

(** A message with a backslash before a double quote. *)
Definition tricky_comment : string :=
  String "a" (String backslash (String dquote "b")).

(** [s] holds the character [c]. *)
Fixpoint has_char (c : ascii) (s : string) : bool :=
  match s with
  | EmptyString => false
  | String d s' => bool_decide (d = c) || has_char c s'
  end.

(** A line of [diff-index --name-status]: status, tab, path. *)
Definition diff_line (letter path : string) : string :=
  letter +:+ str1 tab +:+ path.

(** Five status lines: one added, two modified, one deleted path, and an
    untracked one. *)
Definition sample_lines : list string :=
  [ diff_line "A" "new.txt"; diff_line "M" "a.txt"; diff_line "D" "old.txt";
    diff_line "M" "b.txt"; diff_line "??" "junk" ].

(** What a pipeline step may change: from [w] to [w'] the environment, the
    files created, the cleanup list and [run_command_environ_update] stay,
    and the commands run in between carry that update and satisfy [P]. *)
Definition frame (P : call -> Prop) (w w' : world) : Prop :=
  environ w' = environ w /\ created w' = created w /\
  cleanup_files w' = cleanup_files w /\
  run_command_environ_update w' = run_command_environ_update w /\
  exists new,
    calls w' = (calls w ++ new)%list /\
    Forall (fun c => environ_update c = run_command_environ_update w /\ P c)
           new.

(** The same request in another transport mode. *)
Definition with_mode (m : string) (l : locals) : locals :=
  Locals (local_path l) (user l) (token l) (comment l) (add l) (branch l)
         (remote l) (push l) (set_upstream l) (commit l) (push_option l) m
         (key_file l) (ssh_opts l) (git_path l).

Definition step_labels : list string :=
  ["git_add"; "git_files_added"; "git_staged_files"; "git_commit"; "git_push"].

(** [s] holds no white space. *)
Fixpoint no_space (s : string) : bool :=
  match s with
  | EmptyString => true
  | String c s' => negb (is_space c) && no_space s'
  end.



(** A host where [/work/tree/.git] is a regular file with the given content
    and the directories are those listed. *)
Definition gitfile_host (content : string) (dirs : list string) : host :=
  Host (fun _ => inl "/usr/bin/git")
       "/opt/modules"
       (fun _ => true)
       (fun prefix => inl (default "/tmp/" prefix +:+ "tmpwrap"))
       (fun path => bool_decide (path = "/work/tree/.git"))
       (fun path => bool_decide (path ∈ dirs))
       (fun path => if bool_decide (path = "/work/tree/.git")
                    then inl content
                    else inr "No such file or directory")
       (fun _ _ => (0, "", "")).

(** The sample host with other answers for one of its services: a git that
    prints its version, no place for a temporary file, no git on the path. *)
Definition version_host : host :=
  Host (fun _ => inl "/usr/bin/git") "/opt/modules" (fun _ => true)
       (fun prefix => inl (default "/tmp/" prefix +:+ "tmpwrap"))
       (fun _ => false) (fun _ => false)
       (fun _ => inr "No such file or directory")
       (fun _ _ => (0, "git version 2.39.2" +:+ str1 newline, "")).

Definition no_tmp_host : host :=
  Host (fun _ => inl "/usr/bin/git") "/opt/modules" (fun _ => false)
       (fun _ => inr "No usable temporary directory")
       (fun _ => false) (fun _ => false)
       (fun _ => inr "No such file or directory")
       (fun _ _ => (0, "", "")).

Definition no_git_host : host :=
  Host (fun _ => inr "Failed to find required executable git")
       "/opt/modules" (fun _ => true)
       (fun prefix => inl (default "/tmp/" prefix +:+ "tmpwrap"))
       (fun _ => false) (fun _ => false)
       (fun _ => inr "No such file or directory")
       (fun _ _ => (0, "", "")).

(** What [diff-index] prints for the five sample lines. *)
Definition sample_diff_output : string :=
  join (str1 newline) sample_lines +:+ str1 newline.



Definition https_locals : locals :=
  Locals "/repo" (Some "alice") (Some "t0k3n") (Some "msg") [] "master"
         "origin" true false true None "https" None None "/usr/bin/git".

(** * Properties *)

(** ** The parameters *)

Lemma conforms_declared (p : gmap string value) (k : string) :
  conforms p -> is_Some (p !! k) -> k ∈ argument_spec.*1.
Proof.
  intros Hc Hk. apply andb_prop in Hc as [Hkeys _].
  rewrite forallb_forall in Hkeys.
  apply elem_of_dom, elem_of_elements, list_elem_of_In in Hk.
  apply Hkeys in Hk. by apply bool_decide_eq_true in Hk.
Qed.

Lemma conforms_no_accept_hostkey (p : gmap string value) :
  conforms p -> p !! "accept_hostkey" = None.
Proof.
  intros Hc. destruct (p !! "accept_hostkey") as [v|] eqn:Hv; [|done].
  assert (Hin : "accept_hostkey" ∈ argument_spec.*1)
    by (apply (conforms_declared p); eauto).
  apply list_elem_of_In in Hin. simpl in Hin.
  repeat (destruct Hin as [Hin|Hin]; [discriminate|]). done.
Qed.

Lemma conforms_typed (p : gmap string value) (k : string) (t : ty) :
  conforms p -> (k, t) ∈ argument_spec ->
  exists v, p !! k = Some v /\ has_type t v = true.
Proof.
  intros Hc Hin. apply andb_prop in Hc as [_ Htys].
  rewrite forallb_forall in Htys.
  apply list_elem_of_In, Htys in Hin. simpl in Hin.
  destruct (p !! k) as [v|]; [eauto | discriminate].
Qed.

Ltac declared := apply list_elem_of_In; simpl; tauto.

Lemma param_str_conforms (p : gmap string value) (k : string) (w : world) :
  conforms p -> (k, TStr) ∈ argument_spec ->
  param_str p k w = (Ret (get_str p k), w).
Proof.
  intros Hc Hin. destruct (conforms_typed p k _ Hc Hin) as (v & Hv & Ht).
  unfold param_str, getitem, get_str, bind. rewrite Hv.
  by destruct v.
Qed.

Lemma param_opt_str_conforms (p : gmap string value) (k : string) (w : world) :
  conforms p -> (k, TOptStr) ∈ argument_spec ->
  param_opt_str p k w = (Ret (get_opt_str p k), w).
Proof.
  intros Hc Hin. destruct (conforms_typed p k _ Hc Hin) as (v & Hv & Ht).
  unfold param_opt_str, getitem, get_opt_str, bind. rewrite Hv.
  by destruct v.
Qed.

Lemma param_bool_conforms (p : gmap string value) (k : string) (w : world) :
  conforms p -> (k, TBool) ∈ argument_spec ->
  param_bool p k w = (Ret (get_bool p k), w).
Proof.
  intros Hc Hin. destruct (conforms_typed p k _ Hc Hin) as (v & Hv & Ht).
  unfold param_bool, getitem, get_bool, bind. rewrite Hv.
  by destruct v.
Qed.

Lemma param_list_conforms (p : gmap string value) (k : string) (w : world) :
  conforms p -> (k, TList) ∈ argument_spec ->
  param_list p k w = (Ret (get_list p k), w).
Proof.
  intros Hc Hin. destruct (conforms_typed p k _ Hc Hin) as (v & Hv & Ht).
  unfold param_list, getitem, get_list, bind. rewrite Hv.
  by destruct v.
Qed.

Lemma bind_ret {A B} (m : prog A) (k : A -> prog B) (a : A) (w w' : world) :
  m w = (Ret a, w') -> bind m k w = k a w'.
Proof. intros H. unfold bind. by rewrite H. Qed.

Lemma bind_stop {A B} (m : prog A) (k : A -> prog B) (s : stop)
    (w w' : world) :
  m w = (Stop s, w') -> bind m k w = (Stop s, w').
Proof. intros H. unfold bind. by rewrite H. Qed.

(** On conforming parameters the fifteen lookups succeed; the run goes on
    with the typed values unless git is not found. *)
Lemma read_params_conforms (h : host) (p : gmap string value) (w : world) :
  conforms p ->
  read_params h p w =
    match git_of h p with
    | inl git => (Ret (locals_of p git), w)
    | inr msg => (Stop (FailJson msg None), w)
    end.
Proof.
  intros Hc. unfold read_params.
  repeat first
    [ erewrite bind_ret by (apply param_str_conforms; [done | declared])
    | erewrite bind_ret by (apply param_opt_str_conforms; [done | declared])
    | erewrite bind_ret by (apply param_bool_conforms; [done | declared])
    | erewrite bind_ret by (apply param_list_conforms; [done | declared]) ].
  unfold git_of, find_git, get_str, get_opt_str.
  destruct (conforms_typed p "executable" TOptStr Hc ltac:(declared))
    as (v & Hv & Ht).
  rewrite Hv. destruct v as [|b|e|l]; try discriminate; simpl.
  - unfold bind. destruct (get_bin_path h "git"); reflexivity.
  - unfold bind. destruct (nonempty e); [reflexivity|].
    destruct (get_bin_path h "git"); reflexivity.
Qed.

(** ** The lookup of [accept_hostkey] *)

Lemma accept_hostkey_undeclared (p : gmap string value) (o : option string)
    (w : world) :
  p !! "accept_hostkey" = None ->
  accept_hostkey p o w = (Stop (Uncaught (KeyError "accept_hostkey")), w).
Proof.
  intros Hk. unfold accept_hostkey, getitem, bind. by rewrite Hk.
Qed.

Lemma main_conforms (h : host) (p : gmap string value) (w : world) :
  conforms p ->
  main h p w =
    (Stop (default (Uncaught (KeyError "accept_hostkey")) (early_failure h p)),
     w).
Proof.
  intros Hc. unfold main, early_failure.
  unfold bind at 1. rewrite read_params_conforms by done.
  destruct (git_of h p) as [git|msg]; [|reflexivity].
  unfold bind at 1. unfold check_comment. simpl.
  destruct (get_bool p "commit" && negb (truthy_opt (get_opt_str p "comment")));
    [reflexivity|].
  simpl. unfold bind.
  by rewrite accept_hostkey_undeclared by by apply conforms_no_accept_hostkey.
Qed.

(** C1, as amended.  On the parameters AnsibleModule delivers for this
    [argument_spec], [main] never gets past the lookup of [accept_hostkey]:
    unless the run has already failed (git not found, or a commit without a
    comment), that lookup raises [KeyError]; in every case the state is the
    initial one, so no wrapper was written, the environment is untouched and
    no command, of the pipeline or other, was run. *)
Theorem main_stops_at_accept_hostkey (h : host) (p : gmap string value)
    (w : world) :
  conforms p ->
  (main h p w).2 = w /\
  (early_failure h p = None ->
   (main h p w).1 = Stop (Uncaught (KeyError "accept_hostkey"))) /\
  (forall s, early_failure h p = Some s -> (main h p w).1 = Stop s).
Proof.
  intros Hc. rewrite main_conforms by done. simpl.
  split; [done|]. split.
  - by intros ->.
  - by intros s ->.
Qed.

Lemma main_stops_at_accept_hostkey_witness :
  let p := sample_params ["a.txt"] (VStr "msg") VNone "ssh" in
  let w := initial_world ∅ in
  conforms p /\ early_failure (sample_host "" 0) p = None /\
  (main (sample_host "" 0) p w).1
    = Stop (Uncaught (KeyError "accept_hostkey")) /\
  (main (sample_host "" 0) p w).2 = w.
Proof.
  intros p w.
  assert (Hc : conforms p) by (vm_compute; reflexivity).
  destruct (main_stops_at_accept_hostkey (sample_host "" 0) p w Hc)
    as (Hw & Hk & _).
  split; [exact Hc|]. split; [reflexivity|].
  split; [apply Hk; reflexivity | exact Hw].
Defined.

(** C1 as stated fails: with [commit] true and an empty [comment] the run
    ends in [fail_json] before the lookup, and no [KeyError] is raised. *)
Lemma main_comment_guard_comes_first :
  let p := sample_params ["a.txt"] (VStr "") VNone "ssh" in
  conforms p /\
  (main (sample_host "" 0) p (initial_world ∅)).1
    = Stop (FailJson "Comment must be provided in order commit changes." None)
  /\ (main (sample_host "" 0) p (initial_world ∅)).1
    <> Stop (Uncaught (KeyError "accept_hostkey")).
Proof.
  intros p. split; [vm_compute; reflexivity|].
  split; [vm_compute; reflexivity|].
  vm_compute. discriminate.
Qed.

(** On the declared parameters alone the host key block is not entered: a
    dictionary that holds [accept_hostkey] does not conform to
    [argument_spec], and on the conforming one the run ends with [KeyError]
    at the lookup, before any options string is put to use. *)
Lemma accept_hostkey_cannot_be_requested :
  let p := sample_params [] (VStr "msg") (VStr "-o Foo=bar") "ssh" in
  let r := main (sample_host "" 0) p (initial_world ∅) in
  conforms p /\
  conformsb (<["accept_hostkey" := VBool true]> p) = false /\
  r.1 = Stop (Uncaught (KeyError "accept_hostkey")) /\
  environ r.2 !! "GIT_SSH_OPTS" = None.
Proof.
  intros p r. repeat split; vm_compute; reflexivity.
Qed.


(** ** The step [git_staged_files] *)

(** Whatever the previous step printed, [_get_diff_index] raises: it asks
    a tuple for [split]. *)
Lemma get_diff_index_raises (l : locals) (args : list atom) (w : world) :
  _get_diff_index l args w =
    (Stop (Uncaught (AttributeError "'tuple' object has no attribute 'split'")),
     set_result (Result (Some (local_path l)) (Some false) (Some ∅)) w).
Proof. reflexivity. Qed.

Lemma split_go_not_nil (sep : string) (s : string) :
  forall maxsplit skip cur, split_go sep maxsplit skip cur s <> [].
Proof.
  induction s as [|c s IH]; intros maxsplit skip cur; simpl; [done|].
  destruct skip; [|apply IH].
  destruct (_ && _); [done | apply IH].
Qed.

(** A split has at least one piece, so the branch of [_get_diff_index] that
    ends the run with [changed] false cannot be taken, even on a text. *)
Lemma str_split_length (sep : string) (maxsplit : option nat) (s : string) :
  List.length (str_split sep maxsplit s) <> 0%nat.
Proof.
  unfold str_split.
  pose proof (split_go_not_nil sep s maxsplit 0%nat EmptyString) as H.
  by destruct (split_go sep maxsplit 0 EmptyString s).
Qed.

(** C2.  With something to stage and a [diff-index] that prints nothing,
    the run does not end in [exit_json] with [changed] false: the step
    [git_staged_files] raises [AttributeError].  (The commit and the push
    are indeed not run; the only commands are the version query, [add] and
    [diff-index].) *)
Theorem empty_diff_raises :
  let r := main_body (sample_host "" 0) (sample_locals ["a.txt"] "ssh") None
             (initial_world ∅) in
  r.1 = Stop (Uncaught
                (AttributeError "'tuple' object has no attribute 'split'"))
  /\ r.1 <> Stop (ExitJson (Result (Some "/repo") (Some false) (Some ∅)))
  /\ cmd <$> calls r.2 =
       [ "/usr/bin/git --version";
         "/usr/bin/git -C /repo/.git add a.txt";
         "/usr/bin/git -C /repo/.git diff-index --cached --name-status HEAD" ].
Proof.
  intros r. split; [vm_compute; reflexivity|].
  split; [vm_compute; discriminate | vm_compute; reflexivity].
Qed.

(** C3.  With [add] the list of [a.txt] and a [diff-index] that prints the
    line for the modified [a.txt], the run reports nothing and neither
    commits nor pushes: [git_staged_files] raises [AttributeError], and
    [result] is left with [changed] false and no files. *)
Theorem modified_file_raises :
  let out := String "M" (String tab "a.txt") +:+ str1 newline in
  let r := main_body (sample_host out 0) (sample_locals ["a.txt"] "ssh") None
             (initial_world ∅) in
  r.1 = Stop (Uncaught
                (AttributeError "'tuple' object has no attribute 'split'"))
  /\ result r.2 = Result (Some "/repo") (Some false) (Some ∅)
  /\ cmd <$> calls r.2 =
       [ "/usr/bin/git --version";
         "/usr/bin/git -C /repo/.git add a.txt";
         "/usr/bin/git -C /repo/.git diff-index --cached --name-status HEAD" ].
Proof.
  intros out r. repeat split; vm_compute; reflexivity.
Qed.

(** C4.  The text [diff-index] prints for five status lines (one added,
    two modified, one deleted path and a line with another status) is not
    classified: the step [git_staged_files] raises [AttributeError] at the
    split, before the loop has seen a line, and [files] is left empty, in the
    step and in the run.  The loop itself, given the five lines, fills the
    buckets as the lines say. *)
Theorem diff_status_text_is_not_classified :
  let l := sample_locals ["."] "ssh" in
  let step := _get_diff_index l [AInt 0; AStr sample_diff_output; AStr ""]
                (initial_world ∅) in
  let r := main_body (sample_host sample_diff_output 0) l None
             (initial_world ∅) in
  step.1 = Stop (Uncaught
                   (AttributeError "'tuple' object has no attribute 'split'"))
  /\ res_files (result step.2) = Some ∅
  /\ r.1 = Stop (Uncaught
                   (AttributeError "'tuple' object has no attribute 'split'"))
  /\ result r.2 = Result (Some "/repo") (Some false) (Some ∅)
  /\ classify sample_lines init_changes
     = inr (changes_of ["new.txt"] ["a.txt"; "b.txt"] ["old.txt"]).
Proof.
  intros l step r. repeat split; vm_compute; reflexivity.
Qed.

(** ** The classification loop *)

Lemma changes_of_insert_added (a m d x : list string) :
  <["added" := x]> (changes_of a m d) = changes_of x m d.
Proof. unfold changes_of. apply insert_insert_eq. Qed.

Lemma changes_of_insert_modified (a m d x : list string) :
  <["modified" := x]> (changes_of a m d) = changes_of a x d.
Proof.
  unfold changes_of. rewrite insert_insert_ne by done.
  by rewrite insert_insert_eq.
Qed.

Lemma changes_of_insert_deleted (a m d x : list string) :
  <["deleted" := x]> (changes_of a m d) = changes_of a m x.
Proof.
  unfold changes_of. rewrite (insert_insert_ne _ "deleted" "added") by done.
  rewrite (insert_insert_ne _ "deleted" "modified") by done.
  by rewrite insert_insert_eq.
Qed.

Lemma changes_of_lookup (a m d : list string) :
  changes_of a m d !! "added" = Some a
  /\ changes_of a m d !! "modified" = Some m
  /\ changes_of a m d !! "deleted" = Some d.
Proof.
  unfold changes_of. split; [|split].
  - apply lookup_insert_eq.
  - rewrite lookup_insert_ne by done. apply lookup_insert_eq.
  - rewrite !lookup_insert_ne by done. apply lookup_insert_eq.
Qed.

Lemma status_line_Some (line a f : string) :
  status_line line = Some (a, f) <-> re_split_ws line = [a; f].
Proof.
  unfold status_line.
  destruct (re_split_ws line) as [|x [|y [|z t]]]; split; intros H;
    by inversion H.
Qed.

Lemma status_line_None (line : string) :
  status_line line = None ->
  forall ch, exists msg, classify (line :: []) ch = inl (ValueError msg)
             /\ forall rest, classify (line :: rest) ch = inl (ValueError msg).
Proof.
  unfold status_line. intros H ch. simpl.
  destruct (re_split_ws line) as [|x [|y [|z t]]]; try discriminate; eauto.
Qed.

Lemma paths_with_cons (letter line : string) (rest : list string) :
  paths_with letter (line :: rest) =
    match status_line line with
    | Some (a, f) =>
        if bool_decide (a = letter) then f :: paths_with letter rest
        else paths_with letter rest
    | None => paths_with letter rest
    end.
Proof.
  unfold paths_with. simpl.
  destruct (status_line line) as [[a f]|]; [|done].
  by destruct (bool_decide (a = letter)).
Qed.

(** On well-formed lines the loop appends to each bucket the paths of the
    lines with its letter. *)
Lemma classify_well_formed (lines : list string) :
  forall a m d,
    well_formed lines ->
    classify lines (changes_of a m d) =
      inr (changes_of (a ++ paths_with "A" lines)%list
                      (m ++ paths_with "M" lines)%list
                      (d ++ paths_with "D" lines)%list).
Proof.
  induction lines as [|line rest IH]; intros a m d Hwf.
  - simpl. by rewrite !app_nil_r.
  - apply Forall_cons in Hwf as [[[act f] Hline] Hrest].
    rewrite !paths_with_cons, Hline.
    apply status_line_Some in Hline. simpl. rewrite Hline.
    destruct (changes_of_lookup a m d) as (Ha & Hm & Hd).
    unfold stage_bucket.
    destruct (bool_decide (act = "A")) eqn:EA.
    { apply bool_decide_eq_true in EA as ->. simpl.
      rewrite Ha, changes_of_insert_added, IH by done.
      by rewrite <- !app_assoc. }
    destruct (bool_decide (act = "D")) eqn:ED.
    { apply bool_decide_eq_true in ED as ->. simpl.
      rewrite Hd, changes_of_insert_deleted, IH by done.
      by rewrite <- !app_assoc. }
    destruct (bool_decide (act = "M")) eqn:EM.
    { apply bool_decide_eq_true in EM as ->. simpl.
      rewrite Hm, changes_of_insert_modified, IH by done.
      by rewrite <- !app_assoc. }
    by apply IH.
Qed.

(** A line that does not split in two makes the loop raise [ValueError]. *)
Lemma classify_malformed (lines : list string) :
  forall a m d,
    ~ well_formed lines ->
    exists msg, classify lines (changes_of a m d) = inl (ValueError msg).
Proof.
  induction lines as [|line rest IH]; intros a m d Hwf.
  - destruct Hwf. constructor.
  - destruct (status_line line) as [[act f]|] eqn:Hline.
    + assert (Hrest : ~ well_formed rest).
      { intros Hrest. apply Hwf. constructor; [by rewrite Hline | done]. }
      apply status_line_Some in Hline. simpl. rewrite Hline.
      destruct (changes_of_lookup a m d) as (Ha & Hm & Hd).
      unfold stage_bucket.
      destruct (bool_decide (act = "A"));
        [rewrite Ha, changes_of_insert_added; by apply IH|].
      destruct (bool_decide (act = "D"));
        [rewrite Hd, changes_of_insert_deleted; by apply IH|].
      destruct (bool_decide (act = "M"));
        [rewrite Hm, changes_of_insert_modified; by apply IH|].
      by apply IH.
    + destruct (status_line_None line Hline (changes_of a m d))
        as (msg & _ & Hmsg).
      exists msg. apply Hmsg.
Qed.

Lemma elem_of_paths_with (letter f : string) (lines : list string) :
  f ∈ paths_with letter lines ->
  exists line, line ∈ lines /\ status_line line = Some (letter, f).
Proof.
  unfold paths_with. intros (line & Hin & Hf)%list_elem_of_omap.
  exists line. split; [done|].
  destruct (status_line line) as [[a g]|]; [|done].
  destruct (bool_decide (a = letter)) eqn:E; [|done].
  apply bool_decide_eq_true in E. congruence.
Qed.

(** X21.  The loop over the staged files, run on a list of lines.  When
    every line splits into exactly a status and a path, the loop ends with
    the three buckets holding, in the order of the lines, the paths of the
    lines whose status is [A], [M] and [D] (a line with another status adds
    nothing), and when no path stands on two lines with different statuses,
    no path is in two buckets.  When some line does not split in two, the
    loop raises [ValueError]. *)
Theorem classify_buckets (lines : list string) :
  (well_formed lines ->
   classify lines init_changes =
     inr (changes_of (paths_with "A" lines) (paths_with "M" lines)
                     (paths_with "D" lines))
   /\ (one_status_per_path lines ->
       forall a1 a2 f,
         f ∈ paths_with a1 lines -> f ∈ paths_with a2 lines -> a1 = a2))
  /\ (~ well_formed lines ->
      exists msg, classify lines init_changes = inl (ValueError msg)).
Proof.
  split.
  - intros Hwf. split.
    + by apply (classify_well_formed lines [] [] []).
    + intros Hone a1 a2 f H1 H2.
      apply elem_of_paths_with in H1 as (line1 & Hin1 & Hs1).
      apply elem_of_paths_with in H2 as (line2 & Hin2 & Hs2).
      by apply (Hone a1 a2 f line1 line2).
  - apply (classify_malformed lines [] [] []).
Qed.

Lemma classify_buckets_witness :
  well_formed sample_lines /\ one_status_per_path sample_lines /\
  classify sample_lines init_changes =
    inr (changes_of ["new.txt"] ["a.txt"; "b.txt"] ["old.txt"]) /\
  (forall a1 a2 f,
     f ∈ paths_with a1 sample_lines -> f ∈ paths_with a2 sample_lines ->
     a1 = a2).
Proof.
  assert (Hwf : well_formed sample_lines).
  { repeat constructor; vm_compute; eauto. }
  assert (Hone : one_status_per_path sample_lines).
  { intros a1 a2 f line1 line2 H1 H2 S1 S2.
    apply list_elem_of_In in H1, H2. simpl in H1, H2.
    destruct H1 as [<-|[<-|[<-|[<-|[<-|[]]]]]];
      destruct H2 as [<-|[<-|[<-|[<-|[<-|[]]]]]];
      vm_compute in S1, S2; congruence. }
  destruct (classify_buckets sample_lines) as [Hgood _].
  destruct (Hgood Hwf) as [Hres Hdisj].
  split; [exact Hwf|]. split; [exact Hone|].
  split; [exact Hres | exact (Hdisj Hone)].
Defined.

(** The two side conditions are needed.  A path listed once as added and
    once as modified ends in both buckets; and a line whose path holds a
    space is neither put in a bucket nor passed over: the loop raises. *)
Lemma classify_overlap_and_error :
  (exists changes,
     classify [diff_line "A" "x"; diff_line "M" "x"] init_changes = inr changes
     /\ changes !! "added" = Some ["x"]
     /\ changes !! "modified" = Some ["x"])
  /\ classify [diff_line "M" "my file.txt"] init_changes
     = inl (ValueError "too many values to unpack (expected 2)").
Proof.
  split; [|vm_compute; reflexivity].
  exists (changes_of ["x"] ["x"] []).
  split; [vm_compute; reflexivity|].
  split; vm_compute; reflexivity.
Qed.

(** ** The repository locator *)

(** C5.  The working tree [/srv/foo.git/wt] has a [.git] file that points to
    [../other/.git], and that sibling exists; the locator does not resolve
    the target against the directory of the [.git] entry but against
    [/srv/foo], the text before the first [.git] of the path, and fails. *)
Theorem get_repo_path_cuts_at_first_dot_git :
  isfile linked_host (path_join "/srv/foo.git/wt" ".git") = true /\
  isdir linked_host (path_join "/srv/foo.git/wt/" "../other/.git") = true /\
  str_split ".git" None "/srv/foo.git/wt/.git" = ["/srv/foo"; "/wt/"; ""] /\
  get_repo_path linked_host "/srv/foo.git/wt"
    = inl (ValueError "/srv/foo/../other/.git is not a directory").
Proof. repeat split; vm_compute; reflexivity. Qed.

(** ** What the steps leave alone *)

Lemma frame_refl (P : call -> Prop) (w : world) : frame P w w.
Proof.
  repeat split. exists []. split; [by rewrite app_nil_r | constructor].
Qed.

Lemma frame_trans (P : call -> Prop) (w1 w2 w3 : world) :
  frame P w1 w2 -> frame P w2 w3 -> frame P w1 w3.
Proof.
  intros (He & Hc & Hf & Hu & n1 & Hn1 & HP1)
         (He' & Hc' & Hf' & Hu' & n2 & Hn2 & HP2).
  repeat split; try congruence.
  exists (n1 ++ n2)%list. split.
  - by rewrite Hn2, Hn1, app_assoc.
  - apply Forall_app. split; [done|]. by rewrite <- Hu.
Qed.

Lemma frame_weaken (P Q : call -> Prop) (w w' : world) :
  (forall c, P c -> Q c) -> frame P w w' -> frame Q w w'.
Proof.
  intros HPQ (He & Hc & Hf & Hu & n & Hn & HP).
  repeat split; try done. exists n. split; [done|].
  eapply Forall_impl; [exact HP|]. intros c [? ?]. auto.
Qed.

Lemma run_command_frame (P : call -> Prop) (h : host) (c : string)
    (dir : option string) (w : world) :
  (forall u, P (Call c dir u)) ->
  frame P w (run_command h c dir w).2.
Proof.
  intros HP. unfold run_command. simpl. repeat split.
  eexists. split; [reflexivity|]. by repeat constructor.
Qed.

Lemma set_result_frame (P : call -> Prop) (r : result_dict) (w : world) :
  frame P w (set_result r w).
Proof.
  repeat split. exists []. split; [by rewrite app_nil_r | constructor].
Qed.

Lemma get_diff_index_frame (P : call -> Prop) (l : locals) (args : list atom)
    (w : world) :
  frame P w (_get_diff_index l args w).2.
Proof. rewrite get_diff_index_raises. apply set_result_frame. Qed.

(** A loop over steps that each respect the frame respects it. *)
Lemma run_steps_frame (P : call -> Prop) (commands : list (string * command)) :
  Forall (fun lc => forall args w, frame P w (lc.2 args w).2) commands ->
  forall prev w, frame P w (run_steps commands prev w).2.
Proof.
  induction 1 as [|[label c] rest Hc Hrest IH]; intros prev w.
  - apply frame_refl.
  - simpl. specialize (Hc prev w). simpl in Hc.
    destruct (c prev w) as [[[[rc out] err]|s] w1]; simpl in *; [|done].
    destruct (negb (rc =? 0)); [done|].
    eapply frame_trans; [exact Hc | apply IH].
Qed.

Lemma run_pipeline_frame (P : call -> Prop)
    (commands : list (string * command)) (w : world) :
  Forall (fun lc => forall args w, frame P w (lc.2 args w).2) commands ->
  frame P w (run_pipeline commands w).2.
Proof.
  intros H. unfold run_pipeline, bind, exit_json.
  pose proof (run_steps_frame P commands H [] w) as Hf.
  by destruct (run_steps commands [] w) as [[prev|s] w1].
Qed.

(** Every step [main] builds runs git in [local_path] or runs nothing. *)
Lemma main_commands_frame (h : host) (l : locals) (repo_path : string) :
  Forall (fun lc => forall args w,
            frame (fun c => cwd c = Some (local_path l)) w (lc.2 args w).2)
         (main_commands h l repo_path).
Proof.
  unfold main_commands.
  repeat apply Forall_app_2.
  - destruct (negb (bool_decide (add l = []))); [|constructor].
    constructor; [|constructor; [|constructor; [|constructor]]];
      cbn [snd]; intros args w.
    + by apply (run_command_frame _ h).
    + by apply (run_command_frame _ h).
    + apply get_diff_index_frame.
  - destruct (commit l); [|constructor].
    constructor; [|constructor]; cbn [snd]; intros args w.
    destruct (comment l); [by apply (run_command_frame _ h) | apply frame_refl].
  - destruct (push l); [|constructor].
    constructor; [|constructor]; cbn [snd]; intros args w.
    by apply (run_command_frame _ h).
Qed.

(** ** The transport configuration *)

Lemma write_ssh_wrapper_ret (h : host) (w : world) (wrapper : string) :
  (write_ssh_wrapper h w).1 = Ret wrapper ->
  write_ssh_wrapper h w =
    (Ret wrapper, set_created (<[wrapper := (template, true)]> (created w)) w).
Proof.
  unfold write_ssh_wrapper.
  destruct (access_rwx h (get_module_path h));
    [destruct (mkstemp h (Some _)) as [p|e]|];
    try destruct (mkstemp h None) as [p'|e'];
    simpl; intros [=]; by subst.
Qed.

Lemma set_git_ssh_env_GIT_SSH (wrapper : string) (key_file o : option string)
    (env : gmap string string) :
  set_git_ssh_env wrapper key_file o env !! "GIT_SSH" = Some wrapper.
Proof.
  unfold set_git_ssh_env.
  repeat match goal with
         | |- context [match ?x with _ => _ end] => destruct x
         end;
    repeat first [ rewrite lookup_insert_ne by done
                 | rewrite lookup_delete_ne by done ];
    apply lookup_insert_eq.
Qed.

Lemma git_version_frame (h : host) (git : string) (w : world) :
  frame (fun _ => True) w (git_version h git w).2.
Proof.
  unfold git_version, bind.
  pose proof (run_command_frame (fun _ => True) h (git +:+ " --version")
                None w (fun _ => I)) as Hf.
  destruct (run_command h (git +:+ " --version") None w)
    as [[[[rc out] err]|s] w1]; simpl in *; [|done].
  by destruct (negb (rc =? 0)).
Qed.

Lemma main_body_pipeline (h : host) (l : locals) (o : option string)
    (w : world) (repo_path wrapper : string) :
  get_repo_path h (local_path l) = inr repo_path ->
  (write_ssh_wrapper h w).1 = Ret wrapper ->
  frame (fun _ => True)
    (set_cleanup_files (cleanup_files w ++ [wrapper])%list
       (set_environ (set_git_ssh_env wrapper (key_file l) o (environ w))
          (set_created (<[wrapper := (template, true)]> (created w)) w)))
    (main_body h l o w).2.
Proof.
  intros Hrepo Hwrap. unfold main_body. rewrite Hrepo.
  unfold bind at 1. unfold ret at 1.
  erewrite bind_ret by (by apply write_ssh_wrapper_ret).
  unfold bind at 1. unfold set_git_ssh at 1, modify at 1.
  unfold bind at 1. unfold add_cleanup_file at 1, modify at 1.
  cbn [environ cleanup_files set_environ set_created].
  match goal with |- frame _ ?w0 _ => set (w1 := w0) end.
  unfold bind.
  pose proof (git_version_frame h (git_path l) w1) as Hv.
  destruct (git_version h (git_path l) w1) as [[v|s] w2]; simpl in *; [|done].
  eapply frame_trans; [exact Hv|].
  apply run_pipeline_frame.
  eapply Forall_impl; [apply main_commands_frame|].
  intros lc Hlc args w'. eapply frame_weaken; [|apply Hlc]. done.
Qed.



(** X22.  From line 282 on, once the repository is located and a wrapper
    file can be made, the transport configuration has run at the end of the
    run, for every request and so for [https] as for [ssh]: the wrapper
    exists with the template as content and is executable, the environment
    is the initial one changed by [set_git_ssh] (so GIT_SSH names the
    wrapper), and the wrapper is registered for cleanup.  The [mode] of the
    request has no influence on the run. *)
Theorem transport_configured_in_every_mode (h : host) (l : locals)
    (o : option string) (w : world) (repo_path wrapper : string) :
  get_repo_path h (local_path l) = inr repo_path ->
  (write_ssh_wrapper h w).1 = Ret wrapper ->
  (created (main_body h l o w).2 = <[wrapper := (template, true)]> (created w)
   /\ environ (main_body h l o w).2
      = set_git_ssh_env wrapper (key_file l) o (environ w)
   /\ environ (main_body h l o w).2 !! "GIT_SSH" = Some wrapper
   /\ cleanup_files (main_body h l o w).2
      = (cleanup_files w ++ [wrapper])%list)
  /\ forall m, main_body h (with_mode m l) o w = main_body h l o w.
Proof.
  intros Hrepo Hwrap. split; [|reflexivity].
  destruct (main_body_pipeline h l o w repo_path wrapper Hrepo Hwrap)
    as (He & Hc & Hf & _).
  simpl in He, Hc, Hf. rewrite He, Hc, Hf.
  repeat split. apply set_git_ssh_env_GIT_SSH.
Qed.

Lemma transport_configured_in_every_mode_witness :
  let h := sample_host "" 0 in
  let l := https_locals in
  let w := initial_world ∅ in
  mode l = "https" /\
  created (main_body h l None w).2
    = <["/opt/modules/tmpwrap" := (template, true)]> ∅ /\
  environ (main_body h l None w).2 !! "GIT_SSH" = Some "/opt/modules/tmpwrap" /\
  cleanup_files (main_body h l None w).2 = ["/opt/modules/tmpwrap"].
Proof.
  intros h l w.
  destruct (transport_configured_in_every_mode h l None w "/repo/.git"
              "/opt/modules/tmpwrap")
    as [(Hc & _ & He & Hf) _]; [reflexivity | reflexivity |].
  split; [reflexivity|]. split; [exact Hc|]. split; [exact He | exact Hf].
Defined.

(** In particular a run in [https] mode, with its [user] and [token],
    writes the wrapper and changes the environment from there on. *)
Lemma https_run_configures_transport :
  let l := https_locals in
  let w := initial_world ∅ in
  let w' := (main_body (sample_host "" 0) l None w).2 in
  mode l = "https" /\
  created w' !! "/opt/modules/tmpwrap" = Some (template, true) /\
  environ w' !! "GIT_SSH" = Some "/opt/modules/tmpwrap" /\
  environ w' <> environ w.
Proof.
  intros l w w'. split; [reflexivity|].
  split; [vm_compute; reflexivity|].
  split; [vm_compute; reflexivity|].
  intros H. apply (f_equal (fun e => e !! "GIT_SSH")) in H.
  vm_compute in H. discriminate.
Qed.

(** ** Working directory and locale of the git commands *)

(** The only assignment of [run_command_environ_update] is taken when
    [accept_hostkey] is true and [ssh_opts] is [None]. *)
Lemma accept_hostkey_environ_update (p : gmap string value)
    (o : option string) (w : world) :
  run_command_environ_update (accept_hostkey p o w).2 =
    match p !! "accept_hostkey", o with
    | Some v, None => if truthy v then c_locale
                      else run_command_environ_update w
    | _, _ => run_command_environ_update w
    end.
Proof.
  unfold accept_hostkey, getitem, bind.
  destruct (p !! "accept_hostkey") as [v|]; [|reflexivity]. simpl.
  destruct (truthy v); [|by destruct o].
  destruct o as [s|]; [|reflexivity].
  by destruct (negb (str_contains hostkey_flag s)).
Qed.

(** C8.  Every git command of the pipeline runs with [local_path] as
    working directory, and with the [run_command_environ_update] that is in
    force when the pipeline starts; the pipeline itself never sets it.  In a
    run where the branch of the host key block that assigns it was not
    taken, that update is empty, as in the two sample runs (one that stages,
    one that commits and pushes): no locale is forced. *)
Theorem pipeline_commands_locale :
  (forall h l repo_path w,
     frame (fun c => cwd c = Some (local_path l)) w
           (run_pipeline (main_commands h l repo_path) w).2)
  /\ calls (main_body (sample_host "" 0) (sample_locals ["a.txt"] "ssh") None
              (initial_world ∅)).2
     = [ Call "/usr/bin/git --version" None ∅;
         Call "/usr/bin/git -C /repo/.git add a.txt" (Some "/repo") ∅;
         Call "/usr/bin/git -C /repo/.git diff-index --cached --name-status HEAD"
              (Some "/repo") ∅ ]
  /\ calls (main_body (sample_host "" 0) push_only_locals None
              (initial_world ∅)).2
     = [ Call "/usr/bin/git --version" None ∅;
         Call (commit_command "/usr/bin/git" "/repo/.git" "msg")
              (Some "/repo") ∅;
         Call "/usr/bin/git -C /repo/.git push  origin  master"
              (Some "/repo") ∅ ]
  /\ c_locale <> ∅.
Proof.
  split.
  { intros h l repo_path w. apply run_pipeline_frame, main_commands_frame. }
  split; [vm_compute; reflexivity|].
  split; [vm_compute; reflexivity|].
  intros H. apply (f_equal (fun e => e !! "LANG")) in H.
  vm_compute in H. discriminate.
Qed.

(** ** The loop over the steps *)

Lemma run_steps_app (pre rest : list (string * command)) :
  forall prev w,
    run_steps (pre ++ rest) prev w =
      match run_steps pre prev w with
      | (Ret prev', w') => run_steps rest prev' w'
      | (Stop s, w') => (Stop s, w')
      end.
Proof.
  induction pre as [|[label c] pre IH]; intros prev w; [reflexivity|].
  simpl. destruct (c prev w) as [[[[rc out] err]|s] w1]; [|reflexivity].
  destruct (negb (rc =? 0)); [reflexivity | apply IH].
Qed.

Lemma main_commands_labels (h : host) (l : locals) (repo_path : string) :
  (main_commands h l repo_path).*1 ⊆ step_labels.
Proof.
  unfold main_commands, step_labels.
  intros x Hx. apply list_elem_of_In. apply list_elem_of_In in Hx.
  destruct (negb (bool_decide (add l = []))), (commit l), (push l);
    simpl in *; tauto.
Qed.

(** C9.  When a step of the pipeline returns a non-zero exit code after the
    steps before it returned 0, the run ends there in [fail_json] with the
    message made of the step's label, its stdout and its stderr, in the
    state that step left: none of the later steps runs.  The label is one
    of the five of the pipeline. *)
Theorem failing_step_fails_the_run (h : host) (l : locals)
    (repo_path : string) (pre post : list (string * command))
    (label : string) (c : command) (prev : list atom) (w w1 w2 : world)
    (rc : Z) (out err : string) :
  main_commands h l repo_path = (pre ++ (label, c) :: post)%list ->
  run_steps pre [] w = (Ret prev, w1) ->
  c prev w1 = (Ret (rc, out, err), w2) ->
  rc <> 0 ->
  run_pipeline (main_commands h l repo_path) w =
    (Stop (FailJson ("Failed to " +:+ label +:+ ": " +:+ out +:+ " " +:+ err)
                    None), w2)
  /\ label ∈ step_labels.
Proof.
  intros Hcmds Hpre Hc Hrc. split.
  - unfold run_pipeline, bind. rewrite Hcmds, run_steps_app, Hpre.
    simpl. rewrite Hc.
    destruct (rc =? 0) eqn:E; [|reflexivity].
    apply Z.eqb_eq in E. contradiction.
  - apply (main_commands_labels h l repo_path).
    rewrite Hcmds, fmap_app. apply elem_of_app. right. simpl. left.
Qed.

Lemma failing_step_fails_the_run_witness :
  let h := sample_host "" 1 in
  let w := initial_world ∅ in
  run_pipeline (main_commands h push_only_locals "/repo/.git") w =
    (Stop (FailJson "Failed to git_push:  remote: rejected" None),
     set_calls
       [ Call (commit_command "/usr/bin/git" "/repo/.git" "msg")
              (Some "/repo") ∅;
         Call "/usr/bin/git -C /repo/.git push  origin  master"
              (Some "/repo") ∅ ] w).
Proof.
  intros h w.
  refine (proj1 (failing_step_fails_the_run h push_only_locals "/repo/.git"
                   [_] [] "git_push" _ _ w _ _ 1 "" "remote: rejected"
                   _ _ _ _)).
  - reflexivity.
  - reflexivity.
  - reflexivity.
  - discriminate.
Defined.

(** ** The commit message on the command line *)

Lemma escape_comment_cons (c : ascii) (msg : string) :
  escape_comment (String c msg) =
    if bool_decide (c = dquote)
    then String backslash (String dquote (escape_comment msg))
    else String c (escape_comment msg).
Proof.
  unfold escape_comment, str_replace.
  cbn [replace_go String.prefix str1 String.length Nat.sub].
  destruct (ascii_dec dquote c) as [<-|Hne].
  - rewrite bool_decide_eq_true_2 by done.
    assert (Hp : String.prefix EmptyString msg = true) by by destruct msg.
    by rewrite Hp.
  - by rewrite bool_decide_eq_false_2 by congruence.
Qed.

Lemma commit_command_quotes (git repo_path msg : string) :
  commit_command git repo_path msg =
    git +:+ " -C " +:+ repo_path +:+ " commit -m "
      +:+ String dquote (escape_comment msg +:+ str1 dquote).
Proof. reflexivity. Qed.

(** A message without backslash is read back as it was written. *)
Lemma escape_read_back (msg rest : string) :
  has_char backslash msg = false ->
  read_dquoted (escape_comment msg +:+ String dquote rest) = Some (msg, rest).
Proof.
  induction msg as [|c msg IH]; intros Hno.
  - reflexivity.
  - simpl in Hno. apply orb_false_elim in Hno as [Hc Hmsg].
    rewrite escape_comment_cons.
    destruct (bool_decide (c = dquote)) eqn:Eq.
    + apply bool_decide_eq_true in Eq as ->.
      change (read_dquoted
                (String backslash
                   (String dquote (escape_comment msg +:+ String dquote rest)))
              = Some (String dquote msg, rest)).
      cbn [read_dquoted]. rewrite IH by done. reflexivity.
    + change (read_dquoted
                (String c (escape_comment msg +:+ String dquote rest))
              = Some (String c msg, rest)).
      cbn [read_dquoted]. rewrite Eq, Hc, IH by done. reflexivity.
Qed.

(** C10.  The message [a], backslash, double quote, [b] holds a double
    quote; escaped and put between quotes, its quoted string ends at the
    quote of the message, after [a] and one backslash, and [b] with the
    closing quote is left over: the message is not read back. *)
Theorem backslash_before_quote_ends_the_string :
  has_char dquote tricky_comment = true /\
  escape_comment tricky_comment
    = String "a" (String backslash (String backslash (String dquote "b"))) /\
  read_dquoted (escape_comment tricky_comment +:+ str1 dquote)
    = Some (String "a" (str1 backslash), String "b" (str1 dquote)) /\
  read_dquoted (escape_comment tricky_comment +:+ str1 dquote)
    <> Some (tricky_comment, EmptyString).
Proof.
  split; [reflexivity|]. split; [reflexivity|].
  split; [reflexivity|]. vm_compute. discriminate.
Qed.

(** * Further properties of the module's functions *)

(** ** [set_git_ssh] *)

Lemma set_git_ssh_env_other (wrapper : string) (key_file o : option string)
    (env : gmap string string) (k : string) :
  k <> "GIT_SSH" -> k <> "GIT_KEY" -> k <> "GIT_SSH_OPTS" ->
  set_git_ssh_env wrapper key_file o env !! k = env !! k.
Proof.
  intros H1 H2 H3. unfold set_git_ssh_env.
  repeat match goal with
         | |- context [match ?x with _ => _ end] => destruct x
         end;
    repeat first [ rewrite lookup_insert_ne by done
                 | rewrite lookup_delete_ne by done ];
    reflexivity.
Qed.

Lemma set_git_ssh_env_GIT_KEY (wrapper : string) (key_file o : option string)
    (env : gmap string string) :
  set_git_ssh_env wrapper key_file o env !! "GIT_KEY" =
    if truthy_opt key_file then key_file
    else if env_truthy "GIT_KEY" env then None else env !! "GIT_KEY".
Proof.
  unfold set_git_ssh_env, env_truthy.
  set (env1 := <["GIT_SSH" := wrapper]> _).
  assert (H1 : env1 !! "GIT_KEY" = env !! "GIT_KEY").
  { unfold env1. rewrite lookup_insert_ne by done.
    destruct (truthy_opt (env !! "GIT_SSH"));
      [by rewrite lookup_delete_ne|done]. }
  rewrite H1.
  set (env2 := if truthy_opt (env !! "GIT_KEY") then _ else _).
  assert (H2 : env2 !! "GIT_KEY" =
               if truthy_opt (env !! "GIT_KEY") then None
               else env !! "GIT_KEY").
  { unfold env2. destruct (truthy_opt (env !! "GIT_KEY"));
      [apply lookup_delete_eq | exact H1]. }
  set (env3 := match key_file with Some _ => _ | None => _ end).
  assert (H3 : env3 !! "GIT_KEY" =
               if truthy_opt key_file then key_file else env2 !! "GIT_KEY").
  { unfold env3. destruct key_file as [k|]; simpl; [|done].
    destruct (nonempty k); [apply lookup_insert_eq | done]. }
  assert (H4 : forall env4 : gmap string string,
             (if truthy_opt (env4 !! "GIT_SSH_OPTS")
              then delete "GIT_SSH_OPTS" env4 else env4) !! "GIT_KEY"
             = env4 !! "GIT_KEY").
  { intros env4. destruct (truthy_opt (env4 !! "GIT_SSH_OPTS"));
      [by rewrite lookup_delete_ne | done]. }
  destruct o as [s|]; [destruct (nonempty s)|];
    rewrite ?lookup_insert_ne by done; rewrite H4, H3, H2; reflexivity.
Qed.

Lemma set_git_ssh_env_GIT_SSH_OPTS (wrapper : string)
    (key_file o : option string) (env : gmap string string) :
  set_git_ssh_env wrapper key_file o env !! "GIT_SSH_OPTS" =
    if truthy_opt o then o
    else if env_truthy "GIT_SSH_OPTS" env then None
         else env !! "GIT_SSH_OPTS".
Proof.
  unfold set_git_ssh_env, env_truthy.
  set (env3 := match key_file with Some _ => _ | None => _ end).
  assert (H3 : env3 !! "GIT_SSH_OPTS" = env !! "GIT_SSH_OPTS").
  { unfold env3.
    repeat match goal with
           | |- context [match ?x with _ => _ end] => destruct x
           end;
      repeat first [ rewrite lookup_insert_ne by done
                   | rewrite lookup_delete_ne by done ];
      reflexivity. }
  rewrite H3.
  destruct o as [s|]; simpl.
  - destruct (nonempty s); [apply lookup_insert_eq|].
    destruct (truthy_opt (env !! "GIT_SSH_OPTS"));
      [apply lookup_delete_eq | exact H3].
  - destruct (truthy_opt (env !! "GIT_SSH_OPTS"));
      [apply lookup_delete_eq | exact H3].
Qed.



(** X2.  After [set_git_ssh], GIT_KEY is [key_file] when that is a
    non-empty string; otherwise a non-empty old value is removed and an
    empty or absent one stays as it was.  GIT_SSH_OPTS follows [ssh_opts]
    in the same way.  So each of the two holds a non-empty value exactly
    when the argument is one: no value of an earlier run survives. *)
Theorem set_git_ssh_replaces_key_and_opts (wrapper : string)
    (key_file o : option string) (env : gmap string string) :
  let env' := set_git_ssh_env wrapper key_file o env in
  env' !! "GIT_KEY" =
    (if truthy_opt key_file then key_file
     else if env_truthy "GIT_KEY" env then None else env !! "GIT_KEY") /\
  env' !! "GIT_SSH_OPTS" =
    (if truthy_opt o then o
     else if env_truthy "GIT_SSH_OPTS" env then None
          else env !! "GIT_SSH_OPTS") /\
  truthy_opt (env' !! "GIT_KEY") = truthy_opt key_file /\
  truthy_opt (env' !! "GIT_SSH_OPTS") = truthy_opt o.
Proof.
  simpl. rewrite set_git_ssh_env_GIT_KEY, set_git_ssh_env_GIT_SSH_OPTS.
  unfold env_truthy. repeat split.
  - destruct (truthy_opt key_file) eqn:E; [done|].
    by destruct (truthy_opt (env !! "GIT_KEY")) eqn:E'.
  - destruct (truthy_opt o) eqn:E; [done|].
    by destruct (truthy_opt (env !! "GIT_SSH_OPTS")) eqn:E'.
Qed.

(** X3.  [set_git_ssh] is idempotent on the environment: a second call
    with the same arguments changes nothing. *)
Theorem set_git_ssh_idempotent (wrapper : string)
    (key_file o : option string) (env : gmap string string) :
  set_git_ssh_env wrapper key_file o
    (set_git_ssh_env wrapper key_file o env)
  = set_git_ssh_env wrapper key_file o env.
Proof.
  apply map_eq. intros k.
  destruct (decide (k = "GIT_SSH")) as [->|H1];
    [by rewrite !set_git_ssh_env_GIT_SSH|].
  destruct (decide (k = "GIT_KEY")) as [->|H2].
  { rewrite set_git_ssh_env_GIT_KEY. unfold env_truthy.
    rewrite set_git_ssh_env_GIT_KEY. unfold env_truthy.
    destruct (truthy_opt key_file); [done|].
    by destruct (truthy_opt (env !! "GIT_KEY")) eqn:E; simpl; rewrite ?E. }
  destruct (decide (k = "GIT_SSH_OPTS")) as [->|H3].
  { rewrite set_git_ssh_env_GIT_SSH_OPTS. unfold env_truthy.
    rewrite set_git_ssh_env_GIT_SSH_OPTS. unfold env_truthy.
    destruct (truthy_opt o); [done|].
    by destruct (truthy_opt (env !! "GIT_SSH_OPTS")) eqn:E;
      simpl; rewrite ?E. }
  by rewrite !set_git_ssh_env_other.
Qed.

(** ** [write_ssh_wrapper] *)

(** X4.  [write_ssh_wrapper] fails only when no temporary file can be made
    in the default location, and then raises [OSError] and changes nothing;
    otherwise it returns the path of a new file that holds the template and
    is executable, made next to the module when that directory is
    accessible and the file can be made there, in the default location if
    not.  Nothing else of the state changes. *)
Theorem write_ssh_wrapper_outcome (h : host) (w : world) :
  (exists wrapper,
     write_ssh_wrapper h w =
       (Ret wrapper,
        set_created (<[wrapper := (template, true)]> (created w)) w)
     /\ (access_rwx h (module_path h) = true /\
         mkstemp h (Some (module_path h +:+ "/")) = inl wrapper
         \/ (access_rwx h (module_path h) = false \/
             exists e, mkstemp h (Some (module_path h +:+ "/")) = inr e)
            /\ mkstemp h None = inl wrapper))
  \/ (exists e,
        write_ssh_wrapper h w = (Stop (Uncaught (OSError e)), w)
        /\ mkstemp h None = inr e).
Proof.
  unfold write_ssh_wrapper, get_module_path.
  destruct (access_rwx h (module_path h)) eqn:Ha.
  - destruct (mkstemp h (Some (module_path h +:+ "/"))) as [p|e] eqn:Hm.
    + left. exists p. split; [reflexivity|]. left. done.
    + destruct (mkstemp h None) as [p'|e'] eqn:Hn.
      * left. exists p'. split; [reflexivity|]. right. eauto.
      * right. exists e'. done.
  - destruct (mkstemp h None) as [p'|e'] eqn:Hn.
    + left. exists p'. split; [reflexivity|]. right. eauto.
    + right. exists e'. done.
Qed.

(** ** [get_repo_path] *)

(** X5.  [get_repo_path] returns a path in two cases only: the [.git]
    entry is not a regular file, and the path is [local_path] joined with
    [.git], unchecked; or the entry is a file and the path is an existing
    directory.  It fails only when the entry is a file, and then with a
    [ValueError] or the [IOError] of reading it, the two exceptions [main]
    catches. *)
Theorem get_repo_path_result (h : host) (local_path : string) :
  match get_repo_path h local_path with
  | inr p =>
      isfile h (path_join local_path ".git") = false /\
      p = path_join local_path ".git"
      \/ isfile h (path_join local_path ".git") = true /\ isdir h p = true
  | inl e =>
      isfile h (path_join local_path ".git") = true /\
      exists m, e = ValueError m \/ e = OSError m
  end.
Proof.
  unfold get_repo_path.
  destruct (isfile h (path_join local_path ".git")) eqn:Hf; [|by left].
  destruct (read_file h (path_join local_path ".git")) as [data|e];
    [|split; eauto].
  destruct (str_split "gitdir: " (Some 1%nat) (rstrip data))
    as [|ref_prefix [|gitdir [|x rest]]]; try (split; eauto; fail).
  destruct (nonempty ref_prefix); [split; eauto|].
  match goal with
  | |- context [isdir h ?p] => destruct (isdir h p) eqn:Hd
  end; simpl.
  - right. done.
  - split; eauto.
Qed.

(** *** Splitting at a separator *)

Lemma append_cons (c : ascii) (s t : string) :
  String c s +:+ t = String c (s +:+ t).
Proof. reflexivity. Qed.

Lemma prefix_nil (s : string) : String.prefix EmptyString s = true.
Proof. by destruct s. Qed.

Lemma prefix_cons (a b : ascii) (s1 s2 : string) :
  String.prefix (String a s1) (String b s2) =
    if ascii_dec a b then String.prefix s1 s2 else false.
Proof. reflexivity. Qed.

Lemma prefix_app (p t : string) : String.prefix p (p +:+ t) = true.
Proof.
  induction p as [|c p IH]; [apply prefix_nil|].
  rewrite append_cons, prefix_cons.
  by destruct (ascii_dec c c).
Qed.

Lemma append_nil_r (s : string) : s +:+ EmptyString = s.
Proof.
  induction s as [|c s IH]; [done|]. by rewrite append_cons, IH.
Qed.

Lemma append_snoc (cur : string) (c : ascii) (s : string) :
  (cur +:+ str1 c) +:+ s = cur +:+ String c s.
Proof.
  induction cur as [|d cur IH]; [done|]. by rewrite !append_cons, IH.
Qed.

(** Passing over the rest of a separator just matched. *)
Lemma split_go_skip (sep : string) (maxsplit : option nat) (a : string) :
  forall cur t,
    split_go sep maxsplit (String.length a) cur (a +:+ t)
    = split_go sep maxsplit 0 cur t.
Proof.
  induction a as [|c a IH]; intros cur t; [done|].
  rewrite append_cons. cbn [String.length split_go]. apply IH.
Qed.

(** With no split left the rest is one piece. *)
Lemma split_go_no_more (sep : string) (t : string) :
  forall cur, split_go sep (Some 0%nat) 0 cur t = [cur +:+ t].
Proof.
  induction t as [|c t IH]; intros cur.
  - by rewrite append_nil_r.
  - cbn [split_go andb]. rewrite IH. by rewrite append_snoc.
Qed.

(** A text that holds no separator is one piece. *)
Lemma split_go_no_match (sep : string) (maxsplit : option nat) (t : string) :
  forall cur,
    str_contains sep t = false ->
    split_go sep maxsplit 0 cur t = [cur +:+ t].
Proof.
  induction t as [|c t IH]; intros cur Hno.
  - by rewrite append_nil_r.
  - cbn [str_contains] in Hno. apply orb_false_elim in Hno as [Hp Ht].
    cbn [split_go]. rewrite Hp, andb_false_r.
    rewrite IH by done. by rewrite append_snoc.
Qed.

(** A text that begins with the separator splits, at most once, into the
    empty piece and the rest. *)
Lemma str_split_at_start (c : ascii) (sep' t : string) :
  str_split (String c sep') (Some 1%nat) (String c sep' +:+ t)
  = [EmptyString; t].
Proof.
  unfold str_split. rewrite append_cons. cbn [split_go andb].
  pose proof (prefix_app (String c sep') t) as Hp.
  rewrite append_cons in Hp. rewrite Hp.
  cbn [fmap option_fmap option_map pred String.length Nat.sub].
  rewrite Nat.sub_0_r, split_go_skip, split_go_no_more. reflexivity.
Qed.

(** X6.  When the [.git] file reads, up to trailing white space, as
    [gitdir: ] followed by an absolute target, [get_repo_path] returns that
    target itself if it is an existing directory and raises [ValueError]
    naming it if not; [local_path] plays no part. *)
Theorem get_repo_path_absolute (h : host) (local_path data target : string) :
  isfile h (path_join local_path ".git") = true ->
  read_file h (path_join local_path ".git") = inl data ->
  rstrip data = "gitdir: " +:+ target ->
  isabs target = true ->
  get_repo_path h local_path =
    if isdir h target then inr target
    else inl (ValueError (target +:+ " is not a directory")).
Proof.
  intros Hf Hr Hd Ha. unfold get_repo_path.
  rewrite Hf, Hr, Hd, (str_split_at_start "g" "itdir: " target).
  cbn [nonempty]. rewrite Ha.
  by destruct (isdir h target).
Qed.

Lemma get_repo_path_absolute_witness :
  get_repo_path
    (gitfile_host ("gitdir: /srv/real/.git" +:+ str1 newline)
                  ["/srv/real/.git"])
    "/work/tree"
  = inr "/srv/real/.git".
Proof.
  rewrite (get_repo_path_absolute _ "/work/tree"
             ("gitdir: /srv/real/.git" +:+ str1 newline) "/srv/real/.git");
    reflexivity.
Defined.

(** X7.  When the [.git] file does not hold the text [gitdir: ] at all,
    [get_repo_path] raises the [ValueError] of the failed unpacking, and
    [main] turns it into [fail_json] with that text as details, before any
    file is written or command run. *)
Theorem gitfile_without_marker_fails (h : host) (l : locals)
    (o : option string) (w : world) (data : string) :
  isfile h (path_join (local_path l) ".git") = true ->
  read_file h (path_join (local_path l) ".git") = inl data ->
  str_contains "gitdir: " (rstrip data) = false ->
  get_repo_path h (local_path l)
    = inl (ValueError "not enough values to unpack (expected 2, got 1)")
  /\ main_body h l o w =
       (Stop (FailJson invalid_repo_msg
                (Some "not enough values to unpack (expected 2, got 1)")), w).
Proof.
  intros Hf Hr Hno.
  assert (Hg : get_repo_path h (local_path l)
               = inl (ValueError
                        "not enough values to unpack (expected 2, got 1)")).
  { unfold get_repo_path. rewrite Hf, Hr. unfold str_split.
    by rewrite split_go_no_match by done. }
  split; [exact Hg|]. unfold main_body. by rewrite Hg.
Qed.

Lemma gitfile_without_marker_fails_witness :
  main_body (gitfile_host "ref: refs/heads/master" [])
            (Locals "/work/tree" None None (Some "msg") ["."] "master"
                    "origin" true false true None "ssh" None None
                    "/usr/bin/git")
            None (initial_world ∅)
  = (Stop (FailJson invalid_repo_msg
             (Some "not enough values to unpack (expected 2, got 1)")),
     initial_world ∅).
Proof.
  refine (proj2 (gitfile_without_marker_fails _ _ None (initial_world ∅)
                   "ref: refs/heads/master" _ _ _)); reflexivity.
Defined.

Lemma get_repo_path_error_kind (h : host) (local_path : string) (e : exn) :
  get_repo_path h local_path = inl e ->
  exists m, e = ValueError m \/ e = OSError m.
Proof.
  unfold get_repo_path.
  destruct (isfile h (path_join local_path ".git")); [|discriminate].
  destruct (read_file h (path_join local_path ".git")) as [data|msg];
    [|intros [= <-]; eauto].
  destruct (str_split "gitdir: " (Some 1%nat) (rstrip data))
    as [|ref_prefix [|gitdir [|x rest]]]; try (intros [= <-]; eauto; fail).
  destruct (nonempty ref_prefix); [intros [= <-]; eauto|].
  match goal with
  | |- context [isdir h ?p] => destruct (isdir h p)
  end; simpl; [discriminate | intros [= <-]; eauto].
Qed.

(** X8.  Whenever [get_repo_path] fails, [main] ends in [fail_json] with
    the message about the invalid Git dir reference and the text of the
    exception as details, in the state it started from: no wrapper is
    written, the environment is untouched and no command is run. *)
Theorem locator_failure_fails_the_run (h : host) (l : locals)
    (o : option string) (w : world) (e : exn) :
  get_repo_path h (local_path l) = inl e ->
  exists m, (e = ValueError m \/ e = OSError m) /\
            main_body h l o w
            = (Stop (FailJson invalid_repo_msg (Some m)), w).
Proof.
  intros Hg.
  destruct (get_repo_path_error_kind h (local_path l) e Hg) as (m & [-> | ->]);
    exists m; (split; [eauto|]); unfold main_body; by rewrite Hg.
Qed.

Lemma locator_failure_fails_the_run_witness :
  exists m,
    main_body linked_host
      (Locals "/srv/foo.git/wt" None None (Some "msg") ["."] "master"
              "origin" true false true None "ssh" None None "/usr/bin/git")
      None (initial_world ∅)
    = (Stop (FailJson invalid_repo_msg (Some m)), initial_world ∅).
Proof.
  destruct (locator_failure_fails_the_run linked_host
              (Locals "/srv/foo.git/wt" None None (Some "msg") ["."]
                      "master" "origin" true false true None "ssh" None None
                      "/usr/bin/git")
              None (initial_world ∅)
              (ValueError "/srv/foo/../other/.git is not a directory"))
    as (m & _ & Hm); [reflexivity|].
  exists m. exact Hm.
Defined.

(** *** The first [.git] of a path *)

Ltac dec_all :=
  repeat match goal with
         | |- context [ascii_dec ?a ?b] => destruct (ascii_dec a b)
         | H : context [ascii_dec ?a ?b] |- _ => destruct (ascii_dec a b)
         end.

Lemma prefix_dot_git_same (c : ascii) (p : string) :
  String.prefix ".git" (String c (p +:+ ".git"))
  = String.prefix ".git" (String c (p +:+ ".gi")).
Proof.
  destruct p as [|a [|b [|d p]]]; rewrite ?append_cons;
    try change (EmptyString +:+ ".git") with ".git";
    try change (EmptyString +:+ ".gi") with ".gi";
    cbn [String.prefix]; rewrite ?prefix_nil;
    dec_all; try reflexivity; try congruence.
Qed.

(** When no [.git] begins inside [p], the first piece of [p] followed by
    [.git] is [p]. *)
Lemma split_go_first_dot_git (p : string) :
  forall cur,
    str_contains ".git" (p +:+ ".gi") = false ->
    hd EmptyString (split_go ".git" None 0 cur (p +:+ ".git")) = cur +:+ p.
Proof.
  induction p as [|c p IH]; intros cur Hno.
  - rewrite append_nil_r. reflexivity.
  - rewrite append_cons in Hno |- *. cbn [str_contains] in Hno.
    apply orb_false_elim in Hno as [Hp Hrest].
    cbn [split_go andb]. rewrite prefix_dot_git_same, Hp.
    rewrite IH by done. apply append_snoc.
Qed.

Lemma ends_with_slash_app (p : string) :
  ends_with_char "/" (p +:+ "/") = true.
Proof.
  induction p as [|c p IH]; [reflexivity|].
  rewrite append_cons. destruct p as [|a p]; [reflexivity|].
  rewrite append_cons in IH |- *. exact IH.
Qed.

Lemma no_dot_git_app_slash (p : string) :
  str_contains ".git" p = false -> str_contains ".git" (p +:+ "/") = false.
Proof.
  induction p as [|c p IH]; intros Hno; [reflexivity|].
  rewrite append_cons. cbn [str_contains] in Hno |- *.
  apply orb_false_elim in Hno as [Hp Hrest].
  apply orb_false_intro; [|by apply IH].
  clear IH Hrest.
  destruct p as [|a [|b [|d p]]]; rewrite ?append_cons;
    try change (EmptyString +:+ "/") with "/";
    cbn [String.prefix] in Hp |- *; rewrite ?prefix_nil in *;
    dec_all; try reflexivity; try congruence.
Qed.

Lemma no_dot_git_before_entry (p : string) :
  str_contains ".git" p = false -> ends_with_char "/" p = true ->
  str_contains ".git" (p +:+ ".gi") = false.
Proof.
  induction p as [|c p IH]; intros Hno He; [discriminate|].
  rewrite append_cons. cbn [str_contains] in Hno |- *.
  apply orb_false_elim in Hno as [Hp Hrest].
  apply orb_false_intro.
  - clear IH Hrest.
    destruct p as [|a [|b [|d p]]]; rewrite ?append_cons;
      try change (EmptyString +:+ ".gi") with ".gi";
      cbn [ends_with_char] in He;
      try (apply bool_decide_eq_true in He; subst);
      cbn [String.prefix] in Hp |- *; rewrite ?prefix_nil in *;
      dec_all; try reflexivity; try congruence.
  - destruct p as [|a p]; [reflexivity|]. by apply IH.
Qed.

(** For a path that holds no [.git], the text before the first [.git] of
    its [.git] entry is the path with its separator. *)
Lemma first_piece_of_entry (local_path target : string) :
  str_contains ".git" local_path = false ->
  isabs target = false ->
  path_join (hd EmptyString (str_split ".git" None
                               (path_join local_path ".git"))) target
  = path_join local_path target.
Proof.
  intros Hno Ha. unfold isabs in Ha. unfold path_join at 2 3, str_split.
  change (startswith "/" ".git") with false. cbn iota.
  destruct (bool_decide (local_path = EmptyString)) eqn:E0.
  { apply bool_decide_eq_true in E0 as ->. reflexivity. }
  cbn [orb].
  destruct (ends_with_char "/" local_path) eqn:Ee.
  - rewrite split_go_first_dot_git
      by (by apply no_dot_git_before_entry).
    change (EmptyString +:+ local_path) with local_path.
    unfold path_join. by rewrite Ha, E0, Ee.
  - change ("/" +:+ ".git") with (String "/" ".git").
    rewrite <- (append_snoc local_path "/" ".git").
    rewrite split_go_first_dot_git
      by (apply no_dot_git_before_entry;
          [by apply no_dot_git_app_slash | apply ends_with_slash_app]).
    change (EmptyString +:+ (local_path +:+ str1 "/"))
      with (local_path +:+ str1 "/").
    unfold path_join.
    rewrite Ha, ends_with_slash_app, orb_true_r.
    apply append_snoc.
Qed.

(** X9.  When [local_path] holds no [.git] and the [.git] file reads, up
    to trailing white space, as [gitdir: ] followed by a relative target,
    [get_repo_path] resolves the target against the working tree: it
    returns [local_path] joined with the target if that is an existing
    directory, and raises [ValueError] naming it if not. *)
Theorem get_repo_path_relative (h : host) (local_path data target : string) :
  str_contains ".git" local_path = false ->
  isfile h (path_join local_path ".git") = true ->
  read_file h (path_join local_path ".git") = inl data ->
  rstrip data = "gitdir: " +:+ target ->
  isabs target = false ->
  get_repo_path h local_path =
    if isdir h (path_join local_path target)
    then inr (path_join local_path target)
    else inl (ValueError (path_join local_path target
                            +:+ " is not a directory")).
Proof.
  intros Hno Hf Hr Hd Ha. unfold get_repo_path.
  rewrite Hf, Hr, Hd, (str_split_at_start "g" "itdir: " target).
  cbn [nonempty]. rewrite Ha, first_piece_of_entry by done.
  by destruct (isdir h (path_join local_path target)).
Qed.

Lemma get_repo_path_relative_witness :
  get_repo_path
    (gitfile_host ("gitdir: ../other/.git" +:+ str1 newline)
                  ["/work/tree/../other/.git"])
    "/work/tree"
  = inr "/work/tree/../other/.git".
Proof.
  rewrite (get_repo_path_relative _ "/work/tree"
             ("gitdir: ../other/.git" +:+ str1 newline) "../other/.git");
    reflexivity.
Defined.

(** ** [git_version] *)

Lemma take_line_app (v rest : string) :
  has_char newline v = false ->
  take_line (v +:+ String newline rest) = (v, String newline rest).
Proof.
  induction v as [|c v IH]; intros Hno; [reflexivity|].
  cbn [has_char] in Hno. apply orb_false_elim in Hno as [Hc Hv].
  rewrite append_cons. cbn [take_line]. rewrite Hc, IH by done. reflexivity.
Qed.

Lemma search_version_here (out l r : string) :
  String.prefix "git version " out = true ->
  take_line (drop_chars 12 out) = (l, r) ->
  r = EmptyString \/ r = str1 newline ->
  search_version out = Some l.
Proof.
  intros Hp Ht Hr. destruct out as [|c out]; [discriminate|].
  cbn [search_version]. rewrite Hp, Ht.
  by destruct Hr as [-> | ->].
Qed.

(** X10.  [git_version] runs [<git> --version] once, without a working
    directory, and changes nothing else.  When git exits with 0 and prints
    [git version ], a version without newline and a final newline, the
    result is that version. *)
Theorem git_version_reads_version (h : host) (git : string) (w : world)
    (v err : string) :
  has_char newline v = false ->
  subprocess h (calls w)
    (Call (git +:+ " --version") None (run_command_environ_update w))
  = (0, "git version " +:+ v +:+ str1 newline, err) ->
  git_version h git w =
    (Ret (Some v),
     set_calls (calls w ++ [Call (git +:+ " --version") None
                                 (run_command_environ_update w)])%list w).
Proof.
  intros Hno Hsub. unfold git_version, bind, run_command. rewrite Hsub.
  cbn [negb Z.eqb]. unfold ret.
  rewrite (search_version_here _ v (str1 newline)); [reflexivity | | |].
  - apply prefix_app.
  - change (drop_chars 12 ("git version " +:+ v +:+ str1 newline))
      with (v +:+ String newline EmptyString).
    by apply take_line_app.
  - by right.
Qed.

Lemma git_version_reads_version_witness :
  git_version version_host "/usr/bin/git" (initial_world ∅) =
    (Ret (Some "2.39.2"),
     set_calls [Call "/usr/bin/git --version" None ∅] (initial_world ∅)).
Proof.
  apply (git_version_reads_version version_host "/usr/bin/git"
           (initial_world ∅) "2.39.2" ""); reflexivity.
Defined.

(** X11.  When git exits with a non-zero code on [--version],
    [git_version] returns [None] and the run goes on: the failure is not
    reported. *)
Theorem git_version_failure_is_silent (h : host) (git : string) (w : world)
    (rc : Z) (out err : string) :
  rc <> 0 ->
  subprocess h (calls w)
    (Call (git +:+ " --version") None (run_command_environ_update w))
  = (rc, out, err) ->
  git_version h git w =
    (Ret None,
     set_calls (calls w ++ [Call (git +:+ " --version") None
                                 (run_command_environ_update w)])%list w).
Proof.
  intros Hrc Hsub. unfold git_version, bind, run_command. rewrite Hsub.
  destruct (rc =? 0) eqn:E; [apply Z.eqb_eq in E; contradiction|].
  reflexivity.
Qed.

Lemma git_version_failure_is_silent_witness :
  git_version
    (Host (fun _ => inl "/usr/bin/git") "/opt/modules" (fun _ => true)
          (fun _ => inl "/tmp/tmpwrap") (fun _ => false) (fun _ => false)
          (fun _ => inr "No such file or directory")
          (fun _ _ => (127, "", "git: not found")))
    "/usr/bin/git" (initial_world ∅)
  = (Ret None,
     set_calls [Call "/usr/bin/git --version" None ∅] (initial_world ∅)).
Proof.
  apply (git_version_failure_is_silent _ "/usr/bin/git" (initial_world ∅)
           127 "" "git: not found"); [discriminate | reflexivity].
Defined.

(** ** [main] after the parameters *)

Lemma write_ssh_wrapper_stop (h : host) (w : world) (s : stop) :
  (write_ssh_wrapper h w).1 = Stop s ->
  write_ssh_wrapper h w = (Stop s, w).
Proof.
  unfold write_ssh_wrapper.
  destruct (access_rwx h (get_module_path h));
    [destruct (mkstemp h (Some _)) as [p|e]|];
    try destruct (mkstemp h None) as [p'|e'];
    simpl; intros [=]; by subst.
Qed.

(** X12.  When no temporary file can be made for the wrapper, [main] ends
    with the uncaught [OSError] in the state it started from: the
    environment is not touched and no command is run, not even the version
    query. *)
Theorem wrapper_failure_ends_the_run (h : host) (l : locals)
    (o : option string) (w : world) (repo_path e : string) :
  get_repo_path h (local_path l) = inr repo_path ->
  (write_ssh_wrapper h w).1 = Stop (Uncaught (OSError e)) ->
  main_body h l o w = (Stop (Uncaught (OSError e)), w).
Proof.
  intros Hrepo Hwrap. unfold main_body. rewrite Hrepo.
  unfold bind at 1. unfold ret at 1.
  apply write_ssh_wrapper_stop in Hwrap.
  unfold bind. by rewrite Hwrap.
Qed.

Lemma wrapper_failure_ends_the_run_witness :
  main_body no_tmp_host (sample_locals ["a.txt"] "ssh") None
            (initial_world ∅)
  = (Stop (Uncaught (OSError "No usable temporary directory")),
     initial_world ∅).
Proof.
  apply (wrapper_failure_ends_the_run no_tmp_host _ None (initial_world ∅)
           "/repo/.git"); reflexivity.
Defined.




(** ** Status lines *)

Lemma re_split_go_no_space (s : string) :
  forall in_ws cur,
    no_space s = true -> re_split_go in_ws cur s = [cur +:+ s].
Proof.
  induction s as [|c s IH]; intros in_ws cur Hno.
  - by rewrite append_nil_r.
  - cbn [no_space] in Hno. apply andb_prop in Hno as [Hc Hs].
    apply negb_true_iff in Hc. cbn [re_split_go]. rewrite Hc.
    rewrite IH by done. by rewrite append_snoc.
Qed.

Lemma re_split_go_status (a f : string) :
  forall cur,
    no_space a = true ->
    re_split_go false cur (a +:+ String tab f)
    = (cur +:+ a) :: re_split_go true EmptyString f.
Proof.
  induction a as [|c a IH]; intros cur Hno.
  - by rewrite append_nil_r.
  - cbn [no_space] in Hno. apply andb_prop in Hno as [Hc Ha].
    apply negb_true_iff in Hc. rewrite append_cons. cbn [re_split_go].
    rewrite Hc, IH by done. by rewrite append_snoc.
Qed.

(** X15.  A status line made of a status, a tab and a path, neither
    holding white space, is split back into that status and that path; and
    the loop, run on this one line, puts the path in the bucket of the
    status ([A], [M] or [D]) and in no bucket for any other status. *)
Theorem status_line_round_trip (a f : string) :
  no_space a = true -> no_space f = true ->
  status_line (diff_line a f) = Some (a, f) /\
  classify [diff_line a f] init_changes =
    inr (changes_of (if bool_decide (a = "A") then [f] else [])
                    (if bool_decide (a = "M") then [f] else [])
                    (if bool_decide (a = "D") then [f] else [])).
Proof.
  intros Ha Hf.
  assert (Hs : status_line (diff_line a f) = Some (a, f)).
  { apply status_line_Some. unfold re_split_ws, diff_line.
    change (str1 tab +:+ f) with (String tab f).
    rewrite re_split_go_status by done.
    by rewrite re_split_go_no_space by done. }
  split; [exact Hs|].
  change init_changes with (changes_of [] [] []).
  rewrite (classify_well_formed [diff_line a f] [] [] [])
    by (constructor; [by rewrite Hs | constructor]).
  rewrite !paths_with_cons, Hs. unfold paths_with. simpl.
  by destruct (bool_decide (a = "A")), (bool_decide (a = "M")),
       (bool_decide (a = "D")).
Qed.

Lemma status_line_round_trip_witness :
  status_line (diff_line "M" "src/a.txt") = Some ("M", "src/a.txt") /\
  classify [diff_line "M" "src/a.txt"] init_changes
  = inr (changes_of [] ["src/a.txt"] []).
Proof.
  apply (status_line_round_trip "M" "src/a.txt"); reflexivity.
Defined.

(** X16.  A status line that holds no white space, the empty line
    included, makes the loop raise the [ValueError] of the failed
    unpacking, whatever lines follow and whatever the buckets hold. *)
Theorem line_without_space_raises (line : string) (rest : list string)
    (changes : gmap string (list string)) :
  no_space line = true ->
  classify (line :: rest) changes
  = inl (ValueError "not enough values to unpack (expected 2, got 1)").
Proof.
  intros Hno. cbn [classify]. unfold re_split_ws.
  by rewrite re_split_go_no_space by done.
Qed.

Lemma line_without_space_raises_witness :
  classify [EmptyString; diff_line "M" "a.txt"] init_changes
  = inl (ValueError "not enough values to unpack (expected 2, got 1)").
Proof.
  apply (line_without_space_raises EmptyString [diff_line "M" "a.txt"]
           init_changes). reflexivity.
Defined.

(** ** The commit command *)

(** X17.  For a commit message without backslash, the command line of the
    commit step holds the message between double quotes with every double
    quote escaped, and the quoting rule of [shlex.split] reads that quoted
    string back as the message, with nothing left over.  (What
    [run_command] then expands in the argument, [~] and [$NAME], is not part
    of the statement.) *)
Theorem commit_message_read_back (git repo_path msg : string) :
  has_char backslash msg = false ->
  commit_command git repo_path msg
  = git +:+ " -C " +:+ repo_path +:+ " commit -m "
      +:+ String dquote (escape_comment msg +:+ str1 dquote)
  /\ read_dquoted (escape_comment msg +:+ str1 dquote)
     = Some (msg, EmptyString).
Proof.
  intros Hno. split; [reflexivity | by apply escape_read_back].
Qed.

Lemma commit_message_read_back_witness :
  let msg := "say " +:+ quoted "hi" +:+ " twice" in
  has_char dquote msg = true /\
  read_dquoted (escape_comment msg +:+ str1 dquote) = Some (msg, EmptyString).
Proof.
  intros msg. split; [reflexivity|].
  apply (commit_message_read_back "git" "/repo/.git" msg). reflexivity.
Defined.

(** ** The parameters *)

(** X18.  On conforming parameters with a non-empty [executable], the
    reading of the parameters succeeds with that path as git, without
    changing the state; the search for git on the path plays no part, so
    the run does not fail there when git is not installed. *)
Theorem executable_overrides_search (h : host) (p : gmap string value)
    (w : world) (e : string) :
  conforms p ->
  p !! "executable" = Some (VStr e) ->
  e <> EmptyString ->
  read_params h p w = (Ret (locals_of p e), w).
Proof.
  intros Hc He Hne. rewrite read_params_conforms by done.
  unfold git_of, get_opt_str, get_str. rewrite He. cbn [truthy_opt].
  unfold nonempty. by rewrite bool_decide_eq_false_2 by done.
Qed.

Lemma executable_overrides_search_witness :
  let p := <["executable" := VStr "/opt/git/bin/git"]>
             (sample_params ["a.txt"] (VStr "msg") VNone "ssh") in
  exists l, read_params no_git_host p (initial_world ∅)
            = (Ret l, initial_world ∅)
            /\ git_path l = "/opt/git/bin/git".
Proof.
  intros p. exists (locals_of p "/opt/git/bin/git"). split; [|reflexivity].
  apply (executable_overrides_search no_git_host p (initial_world ∅)
           "/opt/git/bin/git");
    [vm_compute; reflexivity | vm_compute; reflexivity | discriminate].
Defined.

(** X19.  On conforming parameters without a usable [executable], a git
    that is not found ends [main] in [fail_json] with the message of the
    search, before the comment is checked and with the state untouched. *)
Theorem missing_git_fails_first (h : host) (p : gmap string value)
    (w : world) (msg : string) :
  conforms p ->
  truthy_opt (get_opt_str p "executable") = false ->
  get_bin_path h "git" = inr msg ->
  main h p w = (Stop (FailJson msg None), w).
Proof.
  intros Hc He Hg. rewrite main_conforms by done.
  unfold early_failure, git_of. by rewrite He, Hg.
Qed.

Lemma missing_git_fails_first_witness :
  main no_git_host (sample_params ["a.txt"] (VStr "") VNone "ssh")
       (initial_world ∅)
  = (Stop (FailJson "Failed to find required executable git" None),
     initial_world ∅).
Proof.
  apply (missing_git_fails_first no_git_host _ (initial_world ∅));
    [vm_compute; reflexivity | vm_compute; reflexivity | reflexivity].
Defined.

(** ** The host key block *)

Lemma str_contains_app (sub a b : string) :
  str_contains sub b = true -> str_contains sub (a +:+ b) = true.
Proof.
  intros Hb. induction a as [|c a IH]; [exact Hb|].
  rewrite append_cons. cbn [str_contains]. by rewrite IH, orb_true_r.
Qed.

(** X20.  On a dictionary that does hold a true [accept_hostkey], the block
    leaves options that already hold the host key flag as they are and
    appends the flag, after a space, to options that do not; the outcome
    always holds the flag, the state is not changed, and running the block
    again on the outcome changes nothing: the flag is never added twice. *)
Theorem hostkey_flag_added_once (p : gmap string value) (v : value)
    (s : string) (w : world) :
  p !! "accept_hostkey" = Some v ->
  truthy v = true ->
  exists s',
    accept_hostkey p (Some s) w = (Ret (Some s'), w) /\
    (str_contains hostkey_flag s = true /\ s' = s
     \/ str_contains hostkey_flag s = false
        /\ s' = s +:+ " " +:+ hostkey_flag) /\
    str_contains hostkey_flag s' = true /\
    accept_hostkey p (Some s') w = (Ret (Some s'), w).
Proof.
  intros Hk Hv.
  assert (Hblock : forall t,
             accept_hostkey p (Some t) w =
               (Ret (Some (if str_contains hostkey_flag t then t
                           else t +:+ " " +:+ hostkey_flag)), w)).
  { intros t. unfold accept_hostkey, getitem, bind. rewrite Hk. simpl.
    rewrite Hv. by destruct (str_contains hostkey_flag t). }
  destruct (str_contains hostkey_flag s) eqn:E.
  - exists s. rewrite Hblock, E. repeat split; auto.
  - exists (s +:+ " " +:+ hostkey_flag).
    assert (Hin : str_contains hostkey_flag (s +:+ " " +:+ hostkey_flag)
                  = true) by (by apply str_contains_app).
    rewrite !Hblock, E, Hin. repeat split; auto.
Qed.

Lemma hostkey_flag_added_once_witness :
  accept_hostkey (<["accept_hostkey" := VBool true]> ∅) (Some "-o Foo=bar")
                 (initial_world ∅)
  = (Ret (Some "-o Foo=bar -o StrictHostKeyChecking=no"), initial_world ∅).
Proof.
  destruct (hostkey_flag_added_once (<["accept_hostkey" := VBool true]> ∅)
              (VBool true) "-o Foo=bar" (initial_world ∅))
    as (s' & Hrun & [[Hc _] | [_ ->]] & _); [reflexivity | reflexivity | |].
  - discriminate Hc.
  - exact Hrun.
Defined.

(** ** The options a run with [accept_hostkey] uses *)










(** ** A whole run without staging *)



